(** * The commission workflow of the cluster manager

    A shallow embedding of [management/src/clusterm/manager/commission_event.go]
    and the properties of its three methods [process], [prepareInventory] and
    [configureOrCleanupOnErrorRunner].

    Go values are embedded as follows.
    - An [error] is the value built by [errored.Errorf]; the nil error is
      [None].  A function with results [(bool, error)] returns a pair.
    - Objects that are mutated behind pointers, the commission events and the
      [*AnsibleHost] records, live in heaps indexed by addresses.  A nil
      pointer is an address without an object, and dereferencing it panics.
    - The code runs in a state monad whose outcome is either a normal return
      or a Go panic; both carry the state reached.
    - A Go [map] is a [gmap].  The order in which [range] visits it is not
      fixed by the language and is a parameter of the model.
    - A closure stored in a job is a function on the part of the state that
      jobs work on; closing over the pointer [e] is closing over its
      address.
    - The statement [go f()] records that the goroutine was started; nothing
      of it runs before [process] returns.
    - The inventory and configuration subsystems, which the manager reaches
      through interfaces, are type classes; so are the manager's constants
      and helpers that are declared in other files. *)

From Stdlib Require Import Ascii.
From stdpp Require Import base strings gmap list.

(** ** Errors and log records *)

(** [errored.Errorf(format, args...)]. *)
Inductive error : Type :=
| Errorf (format : string) (args : list string).

Global Instance error_eq_dec : EqDecision error.
Proof. solve_decision. Defined.

Definition isNil (err : option error) : bool :=
  match err with None => true | Some _ => false end.

Inductive Level : Type := ErrorLevel | DebugLevel.

Inductive LogArg : Type :=
| ArgStr (s : string)
| ArgErr (err : option error).

(** One call of [log.Errorf] or [log.Debugf]: the format and its arguments. *)
Record LogEntry : Type := mkLog {
  level : Level;
  logFormat : string;
  logArgs : list LogArg
}.

(** ** The monad: state, with panics *)

Inductive Outcome (S A : Type) : Type :=
| Ret (a : A) (s : S)
| Panic (msg : string) (s : S).
Arguments Ret {S A} a s.
Arguments Panic {S A} msg s.

Definition M (S A : Type) : Type := S -> Outcome S A.

Global Instance M_ret {S} : MRet (M S) := fun A a s => Ret a s.

Global Instance M_bind {S} : MBind (M S) := fun A B k c s =>
  match c s with
  | Ret a s' => k a s'
  | Panic msg s' => Panic msg s'
  end.

Definition gets {S A} (f : S -> A) : M S A := fun s => Ret (f s) s.
Definition modify {S} (f : S -> S) : M S unit := fun s => Ret tt (f s).
Definition panic {S A} (msg : string) : M S A := fun s => Panic msg s.

(** The state an outcome ends in, and whether it is a normal return. *)
Definition finalState {S A} (o : Outcome S A) : S :=
  match o with Ret _ s => s | Panic _ s => s end.

Definition returned {S A} (o : Outcome S A) : bool :=
  match o with Ret _ _ => true | Panic _ _ => false end.

(** ** Data model *)

(** Addresses of heap objects. *)
Definition loc : Type := nat.

(** Modelled from the spec: the declaration of [configuration.AnsibleHost] is
    missing from the sources at hand.  The spec describes the host
    configuration record as a group assignment plus a mapping of variable name
    to value, with a tag accessor and group and variable mutators. *)
Record AnsibleHost : Type := mkAnsibleHost {
  tag : string;
  group : string;
  vars : gmap string string
}.

Definition SetGroup (g : string) (h : AnsibleHost) : AnsibleHost :=
  {| tag := tag h; group := g; vars := vars h |}.

Definition SetVar (key val : string) (h : AnsibleHost) : AnsibleHost :=
  {| tag := tag h; group := group h; vars := <[key := val]> (vars h) |}.

(** A value of interface type [configuration.SubsysHost]: its dynamic type is
    either [*configuration.AnsibleHost] (a pointer) or some other
    implementation, of which only the tag is observed here. *)
Inductive SubsysHost : Type :=
| AnsibleHostRef (p : loc)
| ForeignHost (foreignTag : string).

Global Instance SubsysHost_eq_dec : EqDecision SubsysHost.
Proof. solve_decision. Defined.

(** Modelled from the spec: [monitor.SubsysNode] is only used through its
    management address accessor. *)
Record SubsysNode : Type := mkSubsysNode {
  mgmtAddress : string
}.

(** The fields of [node] that this file reads. *)
Record node : Type := mkNode {
  Mon : SubsysNode;
  Cfg : SubsysHost
}.

(** [configuration.SubsysHosts], here always a slice of [*AnsibleHost]. *)
Definition SubsysHosts : Type := list loc.

(** [commissionEvent].  The field [mgr] points to the one manager, which is
    the ambient state of the monad. *)
Record commissionEvent : Type := mkCommissionEvent {
  nodeNames : list string;
  extraVars : string;
  hostGroup : string;
  _hosts : SubsysHosts;
  _enodes : gmap string node
}.

Definition set_hosts (hs : SubsysHosts) (ev : commissionEvent) : commissionEvent :=
  {| nodeNames := nodeNames ev; extraVars := extraVars ev;
     hostGroup := hostGroup ev; _hosts := hs; _enodes := _enodes ev |}.

Definition set_enodes (ns : gmap string node) (ev : commissionEvent) : commissionEvent :=
  {| nodeNames := nodeNames ev; extraVars := extraVars ev;
     hostGroup := hostGroup ev; _hosts := _hosts ev; _enodes := ns |}.

(** Modelled from the spec: the declaration of [JobStatus] is missing; the
    spec lists the statuses of a job. *)
Inductive JobStatus : Type := Idle | Active | Errored | Completed.

Global Instance JobStatus_eq_dec : EqDecision JobStatus.
Proof. solve_decision. Defined.

(** ** Collaborators *)

(** [inventory.Subsys]: the three status setters used by the commission
    workflow.  Each takes a node name and may fail. *)
Class InventorySubsys : Type := {
  Inv : Type;
  SetAssetUnallocated : string -> Inv -> Inv * option error;
  SetAssetProvisioning : string -> Inv -> Inv * option error;
  SetAssetCommissioned : string -> Inv -> Inv * option error
}.

(** [configuration.Subsys] together with [logOutputAndReturnStatus].  [Ext] is
    the state of the world outside the manager: the engine's processes, their
    output streams and the job's log sink.  The engine reads the host records
    it is handed but has no access to the manager's objects. *)
Class ConfigurationSubsys : Type := {
  Ext : Type;
  OutReader : Type;
  CancelFunc : Type;
  ErrCh : Type;
  CancelChannel : Type;
  Writer : Type;
  Configure : gmap loc AnsibleHost -> SubsysHosts -> string -> Ext ->
              Ext * (OutReader * CancelFunc * ErrCh);
  Cleanup : gmap loc AnsibleHost -> SubsysHosts -> string -> Ext ->
            Ext * (OutReader * CancelFunc * ErrCh);
  logOutputAndReturnStatus :
    OutReader -> ErrCh -> CancelChannel -> CancelFunc -> Writer -> Ext ->
    Ext * option error
}.

(** Ghost record of the calls made to the configuration engine. *)
Inductive EngineCall : Type :=
| CallConfigure (hosts : SubsysHosts) (extra : string)
| CallCleanup (hosts : SubsysHosts) (extra : string).

(** ** The manager's state *)

Section State.
Context {IS : InventorySubsys} {CS : ConfigurationSubsys}.

(** The part of the manager that jobs work on: the node registry, the
    inventory, the objects behind pointers (host records and commission
    events), the outside world, and what was logged. *)
Record Store : Type := mkStore {
  nodes : gmap string node;
  inventory : Inv;
  hostHeap : gmap loc AnsibleHost;
  events : gmap loc commissionEvent;
  configuration : Ext;
  engineCalls : list EngineCall;
  logs : list LogEntry
}.

Definition set_inventory (i : Inv) (s : Store) : Store :=
  {| nodes := nodes s; inventory := i; hostHeap := hostHeap s;
     events := events s; configuration := configuration s;
     engineCalls := engineCalls s; logs := logs s |}.

Definition set_hostHeap (h : gmap loc AnsibleHost) (s : Store) : Store :=
  {| nodes := nodes s; inventory := inventory s; hostHeap := h;
     events := events s; configuration := configuration s;
     engineCalls := engineCalls s; logs := logs s |}.

Definition set_events (evs : gmap loc commissionEvent) (s : Store) : Store :=
  {| nodes := nodes s; inventory := inventory s; hostHeap := hostHeap s;
     events := evs; configuration := configuration s;
     engineCalls := engineCalls s; logs := logs s |}.

Definition set_configuration (x : Ext) (s : Store) : Store :=
  {| nodes := nodes s; inventory := inventory s; hostHeap := hostHeap s;
     events := events s; configuration := x;
     engineCalls := engineCalls s; logs := logs s |}.

Definition set_engineCalls (cs : list EngineCall) (s : Store) : Store :=
  {| nodes := nodes s; inventory := inventory s; hostHeap := hostHeap s;
     events := events s; configuration := configuration s;
     engineCalls := cs; logs := logs s |}.

Definition set_logs (l : list LogEntry) (s : Store) : Store :=
  {| nodes := nodes s; inventory := inventory s; hostHeap := hostHeap s;
     events := events s; configuration := configuration s;
     engineCalls := engineCalls s; logs := l |}.

(** A job's runner and completion callback are closures over the store. *)
Definition JobRunner : Type := CancelChannel -> Writer -> M Store (option error).
Definition DoneCallback : Type := JobStatus -> option error -> M Store unit.

Record Job : Type := mkJob {
  runner : JobRunner;
  doneCb : DoneCallback;
  jobStatus : JobStatus
}.

(** What a [go] statement of this file starts. *)
Inductive Goroutine : Type := GoRunActiveJob.

(** The manager: the store, the active-job gate and the goroutines
    started so far. *)
Record Manager : Type := mkManager {
  store : Store;
  activeJob : option Job;
  goroutines : list Goroutine
}.

Definition set_store (s : Store) (m : Manager) : Manager :=
  {| store := s; activeJob := activeJob m; goroutines := goroutines m |}.

Definition set_activeJob (j : option Job) (m : Manager) : Manager :=
  {| store := store m; activeJob := j; goroutines := goroutines m |}.

Definition set_goroutines (g : list Goroutine) (m : Manager) : Manager :=
  {| store := store m; activeJob := activeJob m; goroutines := g |}.

(** A method value of the inventory, as passed to the status helpers. *)
Definition StatusCb : Type := string -> Inv -> Inv * option error.
End State.

(** The manager's own constants and helpers that [commission_event.go] uses
    but does not define.  The queries read the registry, the inventory and
    the host records and change nothing. *)
Class ManagerEnv {IS : InventorySubsys} {CS : ConfigurationSubsys} : Type := {
  ansibleMasterGroupName : string;
  ansibleWorkerGroupName : string;
  ansibleEtcdMasterAddrHostVar : string;
  ansibleEtcdMasterNameHostVar : string;
  (** the order in which [range] visits a map *)
  rangeOrder : gmap string node -> list (string * node);
  IsValidHostGroup : string -> bool;
  isDiscoveredAndAllocatedNode :
    gmap string node -> Inv -> gmap loc AnsibleHost -> string -> bool * option error;
  isMasterNode :
    gmap string node -> Inv -> gmap loc AnsibleHost -> string -> bool * option error;
  commonEventValidate :
    gmap string node -> Inv -> gmap loc AnsibleHost -> list string ->
    gmap string node * option error;
  setAssetsStatusAtomic : list string -> StatusCb -> StatusCb -> M Store (option error);
  jobString : Job -> string
}.

(** ** The code of [commission_event.go] *)

Section Commission.
Context {IS : InventorySubsys} {CS : ConfigurationSubsys} {ME : ManagerEnv}.

(** *** Primitive steps *)

Definition nilDereference : string :=
  "invalid memory address or nil pointer dereference".

Definition badConversion : string :=
  "interface conversion: configuration.SubsysHost is not *configuration.AnsibleHost".

(** [log.Errorf] and [log.Debugf]. *)
Definition logf (lv : Level) (fmt : string) (args : list LogArg) : M Store unit :=
  modify (fun s => set_logs (logs s ++ [mkLog lv fmt args]) s).

(** Reading and writing the event behind the receiver [e]; a nil receiver
    has no object and panics. *)
Definition getEvent (e : loc) : M Store commissionEvent := fun s =>
  match events s !! e with
  | Some ev => Ret ev s
  | None => Panic nilDereference s
  end.

Definition putEvent (e : loc) (ev : commissionEvent) : M Store unit :=
  modify (fun s => set_events (<[e := ev]> (events s)) s).

(** Reading and writing the host record behind a [*AnsibleHost]. *)
Definition getHost (p : loc) : M Store AnsibleHost := fun s =>
  match hostHeap s !! p with
  | Some h => Ret h s
  | None => Panic nilDereference s
  end.

Definition putHost (p : loc) (h : AnsibleHost) : M Store unit :=
  modify (fun s => set_hostHeap (<[p := h]> (hostHeap s)) s).

(** [hostInfo.SetGroup(g)] and [hostInfo.SetVar(key, val)] through the pointer. *)
Definition AnsibleHost_SetGroup (p : loc) (g : string) : M Store unit :=
  h ← getHost p; putHost p (SetGroup g h).

Definition AnsibleHost_SetVar (p : loc) (key val : string) : M Store unit :=
  h ← getHost p; putHost p (SetVar key val h).

(** [c.GetTag()] on an interface value. *)
Definition SubsysHost_GetTag (c : SubsysHost) : M Store string :=
  match c with
  | AnsibleHostRef p => h ← getHost p; mret (tag h)
  | ForeignHost t => mret t
  end.

(** The unchecked type assertion [c.( *configuration.AnsibleHost)]. *)
Definition assertAnsibleHost (c : SubsysHost) : M Store loc :=
  match c with
  | AnsibleHostRef p => mret p
  | ForeignHost _ => panic badConversion
  end.

(** The manager's queries, read off the current store. *)
Definition mgr_isDiscoveredAndAllocatedNode (name : string) : M Store (bool * option error) :=
  gets (fun s => isDiscoveredAndAllocatedNode (nodes s) (inventory s) (hostHeap s) name).

Definition mgr_isMasterNode (name : string) : M Store (bool * option error) :=
  gets (fun s => isMasterNode (nodes s) (inventory s) (hostHeap s) name).

Definition mgr_commonEventValidate (names : list string)
  : M Store (gmap string node * option error) :=
  gets (fun s => commonEventValidate (nodes s) (inventory s) (hostHeap s) names).

(** One call of an inventory status setter. *)
Definition callInventory (cb : Inv -> Inv * option error) : M Store (option error) :=
  fun s => let '(i, err) := cb (inventory s) in Ret err (set_inventory i s).

(** [e.mgr.configuration.Configure(hosts, extraVars)] and [Cleanup]: the
    call is noted in [engineCalls] and handed to the engine. *)
Definition mgr_configuration_Configure (hosts : SubsysHosts) (extra : string)
  : M Store (OutReader * CancelFunc * ErrCh) := fun s =>
  let '(x, r) := Configure (hostHeap s) hosts extra (configuration s) in
  Ret r (set_configuration x
           (set_engineCalls (engineCalls s ++ [CallConfigure hosts extra]) s)).

Definition mgr_configuration_Cleanup (hosts : SubsysHosts) (extra : string)
  : M Store (OutReader * CancelFunc * ErrCh) := fun s =>
  let '(x, r) := Cleanup (hostHeap s) hosts extra (configuration s) in
  Ret r (set_configuration x
           (set_engineCalls (engineCalls s ++ [CallCleanup hosts extra]) s)).

Definition mgr_logOutputAndReturnStatus (outReader : OutReader) (errCh : ErrCh)
    (cancelCh : CancelChannel) (cancelFunc : CancelFunc) (jobLogs : Writer)
  : M Store (option error) := fun s =>
  let '(x, err) :=
    logOutputAndReturnStatus outReader errCh cancelCh cancelFunc jobLogs
      (configuration s) in
  Ret err (set_configuration x s).

(** *** [errActiveJob] (lines 12-14) *)

Definition errActiveJob (desc : string) : error :=
  Errorf "there is already an active job, please try in sometime. Job: %s" [desc].

(** *** [newCommissionEvent] (lines 28-35) *)

Definition newCommissionEvent (names : list string) (extra hostGrp : string)
  : commissionEvent :=
  {| nodeNames := names; extraVars := extra; hostGroup := hostGrp;
     _hosts := []; _enodes := ∅ |}.

(** *** [String] (lines 37-39) *)



(** *** [eventValidate] (lines 88-96) *)

Definition eventValidate (e : loc) : M Store (option error) :=
  ev ← getEvent e;
  if negb (IsValidHostGroup (hostGroup ev)) then
    mret (Some (Errorf "invalid or empty host-group specified: %q" [hostGroup ev]))
  else
    '(enodes, err) ← mgr_commonEventValidate (nodeNames ev);
    putEvent e (set_enodes enodes ev);;
    mret err.

(** *** [prepareInventory] (lines 103-156) *)

(** The first loop (lines 108-138), over the nodes in the order [range]
    yields them.  It returns [masterAddr], [masterName] and
    [masterCommissioned]; [continue] is the recursive call and [break] is
    the return. *)
Fixpoint scanNodes (enodes : gmap string node) (l : list (string * node))
  : M Store (string * string * bool) :=
  match l with
  | [] => mret ("", "", false)
  | (name, node) :: rest =>
      if bool_decide (is_Some (enodes !! name)) then
        (* skip nodes in the event *)
        scanNodes enodes rest
      else
        '(isDiscoveredAndAllocated, err) ← mgr_isDiscoveredAndAllocatedNode name;
        if negb (isNil err) || negb isDiscoveredAndAllocated then
          (if negb (isNil err)
           then logf DebugLevel "a node check failed for %q. Error: %s"
                     [ArgStr name; ArgErr err]
           else mret tt);;
          scanNodes enodes rest
        else
          '(isMaster, err) ← mgr_isMasterNode name;
          if negb (isNil err) || negb isMaster then
            (if negb (isNil err)
             then logf DebugLevel "a node check failed for %q. Error: %s"
                       [ArgStr name; ArgErr err]
             else mret tt);;
            scanNodes enodes rest
          else
            (* found a master node *)
            let masterAddr := mgmtAddress (Mon node) in
            masterName ← SubsysHost_GetTag (Cfg node);
            mret (masterAddr, masterName, true)
  end.

(** The second loop (lines 146-152), appending to [hosts]. *)
Fixpoint buildHosts (nodeGroup masterAddr masterName : string)
    (l : list (string * node)) (hosts : list loc) : M Store (list loc) :=
  match l with
  | [] => mret hosts
  | (_, node) :: rest =>
      hostInfo ← assertAnsibleHost (Cfg node);
      AnsibleHost_SetGroup hostInfo nodeGroup;;
      AnsibleHost_SetVar hostInfo ansibleEtcdMasterAddrHostVar masterAddr;;
      AnsibleHost_SetVar hostInfo ansibleEtcdMasterNameHostVar masterName;;
      buildHosts nodeGroup masterAddr masterName rest (hosts ++ [hostInfo])
  end.

Definition topologyError : error :=
  Errorf "Cannot commission a worker node without existence of a master node in the cluster, make sure atleast one master node is commissioned." [].

Definition prepareInventory (e : loc) : M Store (option error) :=
  ev ← getEvent e;
  let nodeGroup := hostGroup ev in
  registry ← gets nodes;
  '(masterAddr, masterName, masterCommissioned) ←
    scanNodes (_enodes ev) (rangeOrder registry);
  if negb masterCommissioned && String.eqb nodeGroup ansibleWorkerGroupName then
    mret (Some topologyError)
  else
    (* prepare inventory *)
    hosts ← buildHosts nodeGroup masterAddr masterName (rangeOrder (_enodes ev)) [];
    putEvent e (set_hosts hosts ev);;
    mret None.

(** *** [configureOrCleanupOnErrorRunner] (lines 160-174) *)

Definition configureOrCleanupOnErrorRunner (e : loc) : JobRunner :=
  fun cancelCh jobLogs =>
    ev ← getEvent e;
    '(outReader, cancelFunc, errCh) ←
      mgr_configuration_Configure (_hosts ev) (extraVars ev);
    cfgErr ← mgr_logOutputAndReturnStatus outReader errCh cancelCh cancelFunc jobLogs;
    if isNil cfgErr then mret None
    else
      logf ErrorLevel "configuration failed, starting cleanup. Error: %s" [ArgErr cfgErr];;
      ev ← getEvent e;
      '(outReader, cancelFunc, errCh) ←
        mgr_configuration_Cleanup (_hosts ev) (extraVars ev);
      err ← mgr_logOutputAndReturnStatus outReader errCh cancelCh cancelFunc jobLogs;
      (if negb (isNil err)
       then logf ErrorLevel "cleanup failed. Error: %s" [ArgErr err]
       else mret tt);;
      (* return the error status from provisioning *)
      mret cfgErr.

(** *** The manager's helpers that [process] calls *)

(** Modelled from the spec: [setAssetsStatusBestEffort] is not in this file.
    The spec describes it as the batch variant that applies the setter per
    node and logs individual failures without aborting the batch.  The text
    of the log record is not given by the spec. *)
Fixpoint setAssetsStatusBestEffort (names : list string) (statusCb : StatusCb)
  : M Store unit :=
  match names with
  | [] => mret tt
  | name :: rest =>
      err ← callInventory (statusCb name);
      (if negb (isNil err)
       then logf ErrorLevel "failed to update the asset status of %s. Error: %v"
                 [ArgStr name; ArgErr err]
       else mret tt);;
      setAssetsStatusBestEffort rest statusCb
  end.

(** Running a store computation inside the manager. *)
Definition liftStore {A} (c : M Store A) : M Manager A := fun m =>
  match c (store m) with
  | Ret a s => Ret a (set_store s m)
  | Panic msg s => Panic msg (set_store s m)
  end.

(** Modelled from the spec: [checkAndSetActiveJob] is not in this file.  The
    spec: it tests whether a job is already active; if so it fails with an
    already-active error carrying a description of the conflicting job and
    performs no mutation; otherwise it records the new job as active and
    returns success. *)
Definition checkAndSetActiveJob (r : JobRunner) (d : DoneCallback)
  : M Manager (option error) := fun m =>
  match activeJob m with
  | Some j => Ret (Some (errActiveJob (jobString j))) m
  | None =>
      Ret None (set_activeJob (Some {| runner := r; doneCb := d; jobStatus := Active |}) m)
  end.

(** Modelled from the spec: [resetActiveJob] is not in this file.  The spec:
    it clears the active job. *)
Definition resetActiveJob : M Manager unit :=
  modify (set_activeJob None).

(** The statement [go f()]: the goroutine is started, not run. *)
Definition go (g : Goroutine) : M Manager unit :=
  modify (fun m => set_goroutines (goroutines m ++ [g]) m).

(** [defer]: the deferred function runs when the body returns or panics.
    Its argument is the value of the variable [err] at that moment: the
    value being returned on a return, and nil on a panic, since [process]
    only calls out while [err] is nil and a call that panics assigns
    nothing. *)
Definition withDefer (deferred : option error -> M Manager unit)
    (body : M Manager (option error)) : M Manager (option error) := fun m =>
  match body m with
  | Ret err m' =>
      match deferred err m' with
      | Ret _ m'' => Ret err m''
      | Panic msg m'' => Panic msg m''
      end
  | Panic msg m' =>
      match deferred None m' with
      | Ret _ m'' => Panic msg m''
      | Panic msg' m'' => Panic msg' m''
      end
  end.

(** *** [process] (lines 41-86) *)

(** The completion callback, the function literal of lines 47-56. *)
Definition commissionDone (e : loc) : DoneCallback :=
  fun status errRet =>
    if bool_decide (status = Errored) then
      logf ErrorLevel "configuration job failed. Error: %v" [ArgErr errRet];;
      (* set assets as unallocated *)
      ev ← getEvent e;
      setAssetsStatusBestEffort (nodeNames ev) SetAssetUnallocated
    else
      (* set assets as commissioned *)
      ev ← getEvent e;
      setAssetsStatusBestEffort (nodeNames ev) SetAssetCommissioned.

(** The deferred function of lines 60-64. *)
Definition rollbackOnError (err : option error) : M Manager unit :=
  if negb (isNil err) then resetActiveJob else mret tt.

(** Lines 66-85, the part of [process] that runs under the [defer]. *)
Definition processSteps (e : loc) : M Manager (option error) :=
  (* validate event data *)
  err ← liftStore (eventValidate e);
  if negb (isNil err) then mret err else
  (* prepare inventory *)
  err ← liftStore (prepareInventory e);
  if negb (isNil err) then mret err else
  (* set assets as provisioning *)
  ev ← liftStore (getEvent e);
  err ← liftStore (setAssetsStatusAtomic (nodeNames ev)
                     SetAssetProvisioning SetAssetUnallocated);
  if negb (isNil err) then mret err else
  (* trigger node configuration *)
  go GoRunActiveJob;;
  mret None.

Definition process (e : loc) : M Manager (option error) :=
  _ ← liftStore (getEvent e);
  err ← checkAndSetActiveJob (configureOrCleanupOnErrorRunner e) (commissionDone e);
  if negb (isNil err) then mret err else
  withDefer rollbackOnError (processSteps e).

(** The same lines 41-86 with the body of the manager's [resetActiveJob] left
    open: [reset] stands for whatever the call of line 62 runs.  [process] is
    [processWith resetActiveJob]. *)
Definition processWith (reset : M Manager unit) (e : loc) : M Manager (option error) :=
  _ ← liftStore (getEvent e);
  err ← checkAndSetActiveJob (configureOrCleanupOnErrorRunner e) (commissionDone e);
  if negb (isNil err) then mret err else
  withDefer (fun err => if negb (isNil err) then reset else mret tt) (processSteps e).
End Commission.

(** ** A concrete cluster

    The collaborators instantiated as the spec describes them, and the
    cluster of the spec's scenarios: a commissioned master [m1] and two
    unallocated nodes [n1] and [n2]. *)

Module Scenario.

(** Modelled from the spec: the asset status of a node and its legal moves,
    Unallocated to Provisioning to Commissioned, or Provisioning back to
    Unallocated.  The inventory backend itself is not in the sources. *)
Inductive AssetStatus : Type :=
| Unallocated | Provisioning | Commissioned | AssetErrored.

Global Instance AssetStatus_eq_dec : EqDecision AssetStatus.
Proof. solve_decision. Defined.

Definition move (from to : AssetStatus) (name : string)
    (inv : gmap string AssetStatus) : gmap string AssetStatus * option error :=
  match inv !! name with
  | Some st =>
      if bool_decide (st = from) then (<[name := to]> inv, None)
      else (inv, Some (Errorf "transition is not allowed for asset %s" [name]))
  | None => (inv, Some (Errorf "the asset %s doesn't exist" [name]))
  end.

Global Instance statusTable : InventorySubsys := {|
  Inv := gmap string AssetStatus;
  SetAssetUnallocated := move Provisioning Unallocated;
  SetAssetProvisioning := move Unallocated Provisioning;
  SetAssetCommissioned := move Provisioning Commissioned
|}.

(** The outside world is the list of the statuses that the coming runs of
    the engine resolve to, in order; a run past the end of the list
    succeeds. *)
Global Instance engine : ConfigurationSubsys := {|
  Ext := list (option error);
  OutReader := unit;
  CancelFunc := unit;
  ErrCh := unit;
  CancelChannel := unit;
  Writer := unit;
  Configure := fun _ _ _ x => (x, (tt, tt, tt));
  Cleanup := fun _ _ _ x => (x, (tt, tt, tt));
  logOutputAndReturnStatus := fun _ _ _ _ _ x =>
    match x with
    | [] => ([], None)
    | st :: rest => (rest, st)
    end
|}.

Definition masterGroup : string := "master".
Definition workerGroup : string := "worker".

Definition statusIs (st : AssetStatus) (inv : gmap string AssetStatus)
    (name : string) : bool :=
  bool_decide (inv !! name = Some st).

(** Modelled from the spec: is the node discovered and already allocated.  A
    name without an asset is an error of the state query. *)
Definition discoveredAndAllocated (ns : gmap string node)
    (inv : gmap string AssetStatus) (hp : gmap loc AnsibleHost) (name : string)
  : bool * option error :=
  match inv !! name with
  | Some st => (bool_decide (st = Commissioned), None)
  | None => (false, Some (Errorf "the asset %s doesn't exist" [name]))
  end.

(** Modelled from the spec: is the node a member of the master group. *)
Definition inMasterGroup (ns : gmap string node)
    (inv : gmap string AssetStatus) (hp : gmap loc AnsibleHost) (name : string)
  : bool * option error :=
  match ns !! name with
  | Some nd =>
      match Cfg nd with
      | AnsibleHostRef p =>
          match hp !! p with
          | Some h => (String.eqb (group h) masterGroup, None)
          | None => (false, Some (Errorf "the configuration of %s is missing" [name]))
          end
      | ForeignHost _ => (false, None)
      end
  | None => (false, Some (Errorf "the node %s doesn't exist" [name]))
  end.

(** Modelled from the spec: the shared validation routine resolves the names
    against the registry; each must exist and be unallocated. *)
Fixpoint resolve (ns : gmap string node) (inv : gmap string AssetStatus)
    (names : list string) : gmap string node * option error :=
  match names with
  | [] => (∅, None)
  | name :: rest =>
      match ns !! name with
      | Some nd =>
          if statusIs Unallocated inv name then
            match resolve ns inv rest with
            | (enodes, None) => (<[name := nd]> enodes, None)
            | (_, Some err) => (∅, Some err)
            end
          else (∅, Some (Errorf "the node %s is not in unallocated state" [name]))
      | None => (∅, Some (Errorf "the node %s doesn't exist" [name]))
      end
  end.

Fixpoint applyAll (cb : string -> gmap string AssetStatus ->
                        gmap string AssetStatus * option error)
    (names : list string) (inv : gmap string AssetStatus)
  : gmap string AssetStatus * option error :=
  match names with
  | [] => (inv, None)
  | name :: rest =>
      match cb name inv with
      | (inv', None) => applyAll cb rest inv'
      | (inv', Some err) => (inv', Some err)
      end
  end.

(** Modelled from the spec: the atomic status transition either moves every
    node or, if one of them cannot move, fails and changes no status. *)
Definition allOrNothing (names : list string) (statusCb revertCb : StatusCb)
  : M Store (option error) := fun s =>
  match applyAll statusCb names (inventory s) with
  | (inv', None) => Ret None (set_inventory inv' s)
  | (_, Some err) => Ret (Some err) s
  end.

Global Instance env : ManagerEnv := {|
  ansibleMasterGroupName := masterGroup;
  ansibleWorkerGroupName := workerGroup;
  ansibleEtcdMasterAddrHostVar := "masterAddr";
  ansibleEtcdMasterNameHostVar := "masterName";
  rangeOrder := map_to_list;
  IsValidHostGroup := fun g => String.eqb g masterGroup || String.eqb g workerGroup;
  isDiscoveredAndAllocatedNode := discoveredAndAllocated;
  isMasterNode := inMasterGroup;
  commonEventValidate := fun ns inv _ names => resolve ns inv names;
  setAssetsStatusAtomic := allOrNothing;
  jobString := fun _ => "job"
|}.

(** The host records: [0] is the master's, [1] and [2] those of [n1], [n2]. *)
Definition hosts0 : gmap loc AnsibleHost :=
  {[ 0 := mkAnsibleHost "master-1" masterGroup ∅;
     1 := mkAnsibleHost "node-1" "" ∅;
     2 := mkAnsibleHost "node-2" "" ∅ ]}.

Definition m1 : node := mkNode (mkSubsysNode "10.0.0.5") (AnsibleHostRef 0).
Definition n1 : node := mkNode (mkSubsysNode "10.0.0.11") (AnsibleHostRef 1).
Definition n2 : node := mkNode (mkSubsysNode "10.0.0.12") (AnsibleHostRef 2).

Definition registry : gmap string node :=
  {[ "m1" := m1; "n1" := n1; "n2" := n2 ]}.

(** The event at address [7] commissions [n1] and [n2] into [grp]. *)
Definition cluster (grp : string) (masterStatus : AssetStatus)
    (world : list (option error)) : Store :=
  {| nodes := registry;
     inventory :=
       {[ "m1" := masterStatus; "n1" := Unallocated; "n2" := Unallocated ]};
     hostHeap := hosts0;
     events := {[ 7 := newCommissionEvent ["n1"; "n2"] "" grp ]};
     configuration := world;
     engineCalls := [];
     logs := [] |}.

Definition manager (s : Store) : Manager :=
  {| store := s; activeJob := None; goroutines := [] |}.

(** The event once validation has resolved its nodes, and once the
    inventory is prepared. *)
Definition resolved (grp : string) : commissionEvent :=
  set_enodes {[ "n1" := n1; "n2" := n2 ]} (newCommissionEvent ["n1"; "n2"] "" grp).

Definition validated (grp : string) (masterStatus : AssetStatus)
    (world : list (option error)) : Store :=
  set_events {[ 7 := resolved grp ]} (cluster grp masterStatus world).

Definition prepared (world : list (option error)) : Store :=
  set_events {[ 7 := set_hosts [1; 2] (resolved workerGroup) ]}
    (cluster workerGroup Commissioned world).

Definition engineFailure : error := Errorf "the playbook failed" [].
Definition cleanupFailure : error := Errorf "the cleanup playbook failed" [].

(** A node whose configuration record is of another type, and an event
    that commissions it together with [n1]. *)
Definition f1 : node := mkNode (mkSubsysNode "10.0.0.13") (ForeignHost "other-1").

Definition mixed : Store :=
  {| nodes := <[ "f1" := f1 ]> registry;
     inventory :=
       {[ "m1" := Commissioned; "n1" := Unallocated; "f1" := Unallocated ]};
     hostHeap := hosts0;
     events :=
       {[ 7 := set_enodes {[ "n1" := n1; "f1" := f1 ]}
                 (newCommissionEvent ["n1"; "f1"] "" workerGroup) ]};
     configuration := [];
     engineCalls := [];
     logs := [] |}.

(** A node of the registry that has no asset, so that the state query of
    the scan fails on it; [range] yields it before [m1]. *)
Definition g1 : node := mkNode (mkSubsysNode "10.0.0.9") (ForeignHost "ghost-1").

Definition withGhost : Store :=
  {| nodes := <[ "g1" := g1 ]> registry;
     inventory :=
       {[ "m1" := Commissioned; "n1" := Unallocated; "n2" := Unallocated ]};
     hostHeap := hosts0;
     events := {[ 7 := resolved workerGroup ]};
     configuration := [];
     engineCalls := [];
     logs := [] |}.

(** The job has failed while [n2] was provisioning; [n1] was taken back to
    unallocated by hand in the meantime. *)
Definition halfProvisioned : Store :=
  set_inventory
    ({[ "m1" := Commissioned; "n1" := Unallocated; "n2" := Provisioning ]}
       : gmap string AssetStatus)
    (prepared []).

(** An event without node names, and one that names a node the registry
    does not know. *)
Definition noNames : Store :=
  set_events {[ 7 := newCommissionEvent [] "" workerGroup ]}
    (cluster workerGroup Commissioned []).

Definition unknownName : Store :=
  set_events {[ 7 := newCommissionEvent ["n1"; "zz"] "" workerGroup ]}
    (cluster workerGroup Commissioned []).

(** The same manager with an inventory that cannot be reached, so that the
    atomic transition fails. *)
Definition unreachable : error := Errorf "the inventory is unreachable" [].

Definition downEnv : ManagerEnv := {|
  ansibleMasterGroupName := masterGroup;
  ansibleWorkerGroupName := workerGroup;
  ansibleEtcdMasterAddrHostVar := "masterAddr";
  ansibleEtcdMasterNameHostVar := "masterName";
  rangeOrder := map_to_list;
  IsValidHostGroup := fun g => String.eqb g masterGroup || String.eqb g workerGroup;
  isDiscoveredAndAllocatedNode := discoveredAndAllocated;
  isMasterNode := inMasterGroup;
  commonEventValidate := fun ns inv _ names => resolve ns inv names;
  setAssetsStatusAtomic := fun _ _ _ => mret (Some unreachable);
  jobString := fun _ => "job"
|}.

(** The same cluster when the master [m1] is not commissioned. *)
Definition mixedNoMaster : Store :=
  set_inventory
    ({[ "m1" := Unallocated; "n1" := Unallocated; "n2" := Unallocated;
        "f1" := Unallocated ]} : gmap string AssetStatus)
    mixed.

(** A manager whose gate is held by some other job. *)
Definition otherJob : Job :=
  {| runner := fun _ _ => mret None;
     doneCb := fun _ _ => mret tt;
     jobStatus := Active |}.

Definition busy (s : Store) : Manager :=
  {| store := s; activeJob := Some otherJob; goroutines := [] |}.

End Scenario.

(** ** Specification-level notions *)

Section Notions.
Context {IS : InventorySubsys} {CS : ConfigurationSubsys} {ME : ManagerEnv}.

(** Appending records to the log. *)
Definition addLogs (ls : list LogEntry) (s : Store) : Store :=
  set_logs (logs s ++ ls) s.

(** A candidate of the topology scan is an existing master when it is not
    one of the nodes of the event and both queries answer yes without an
    error. *)
Definition isExistingMaster (s : Store) (enodes : gmap string node)
    (c : string * node) : bool :=
  bool_decide (enodes !! c.1 = None)
  && (let r := isDiscoveredAndAllocatedNode (nodes s) (inventory s) (hostHeap s) c.1 in
      isNil r.2 && r.1)
  && (let r := isMasterNode (nodes s) (inventory s) (hostHeap s) c.1 in
      isNil r.2 && r.1).

(** The first existing master in the order of the scan, with its position. *)
Definition existingMaster (s : Store) (enodes : gmap string node)
  : option (nat * (string * node)) :=
  list_find (fun c => Is_true (isExistingMaster s enodes c)) (rangeOrder (nodes s)).

Definition checkFailed (name : string) (err : option error) : LogEntry :=
  mkLog DebugLevel "a node check failed for %q. Error: %s" [ArgStr name; ArgErr err].

(** What the scan logs for a candidate that is not taken: the error of the
    first query, or else, if that one answered yes, the error of the
    second. *)
Definition checkLog (s : Store) (enodes : gmap string node)
    (c : string * node) : list LogEntry :=
  if bool_decide (is_Some (enodes !! c.1)) then []
  else
    let r := isDiscoveredAndAllocatedNode (nodes s) (inventory s) (hostHeap s) c.1 in
    if negb (isNil r.2) then [checkFailed c.1 r.2]
    else if negb r.1 then []
    else
      let r' := isMasterNode (nodes s) (inventory s) (hostHeap s) c.1 in
      if negb (isNil r'.2) then [checkFailed c.1 r'.2] else [].

Definition scanLog (s : Store) (enodes : gmap string node)
    (l : list (string * node)) : list LogEntry :=
  concat (checkLog s enodes <$> l).

(** The tag of a configuration record, if its object exists. *)
Definition readTag (hp : gmap loc AnsibleHost) (c : SubsysHost) : option string :=
  match c with
  | AnsibleHostRef p => tag <$> hp !! p
  | ForeignHost t => Some t
  end.

(** The master address and master name that the scan yields: those of the
    first existing master, or empty strings when there is none. *)
Definition masterVars (s : Store) (enodes : gmap string node) : string * string :=
  match existingMaster s enodes with
  | Some (_, (_, nd)) =>
      (mgmtAddress (Mon nd), default "" (readTag (hostHeap s) (Cfg nd)))
  | None => ("", "")
  end.

(** The candidates the scan goes through: those before the first existing
    master, or all of them. *)
Definition scanned (s : Store) (enodes : gmap string node) : list (string * node) :=
  match existingMaster s enodes with
  | Some (i, _) => take i (rangeOrder (nodes s))
  | None => rangeOrder (nodes s)
  end.

(** The configuration record of the existing master, if there is one, can
    be read. *)
Definition masterReadable (s : Store) (enodes : gmap string node) : Prop :=
  ∀ i name nd, existingMaster s enodes = Some (i, (name, nd)) ->
               is_Some (readTag (hostHeap s) (Cfg nd)).

(** The masters among the candidates have configuration records that can be
    read. *)
Definition mastersReadable (s : Store) (enodes : gmap string node)
    (l : list (string * node)) : Prop :=
  ∀ c, c ∈ l -> isExistingMaster s enodes c = true ->
       is_Some (readTag (hostHeap s) (Cfg c.2)).

(** A node carries a live [*AnsibleHost] as its configuration record. *)
Definition carriesAnsibleHost (hp : gmap loc AnsibleHost) (nd : node) : Prop :=
  ∃ p, Cfg nd = AnsibleHostRef p ∧ is_Some (hp !! p).

(** The event's nodes all carry live [*AnsibleHost] records. *)
Definition enodesCarryAnsibleHosts (s : Store) (ev : commissionEvent) : Prop :=
  ∀ name nd, _enodes ev !! name = Some nd -> carriesAnsibleHost (hostHeap s) nd.

(** A host record holds the group and the two master variables. *)
Definition configured (g addr name : string) (h : AnsibleHost) : Prop :=
  group h = g
  ∧ vars h !! ansibleEtcdMasterAddrHostVar = Some addr
  ∧ vars h !! ansibleEtcdMasterNameHostVar = Some name.

(** The pointer a node's configuration record holds, if it is an
    [*AnsibleHost]. *)
Definition hostPtr (c : string * node) : option loc :=
  match Cfg c.2 with
  | AnsibleHostRef p => Some p
  | ForeignHost _ => None
  end.

(** What one round of the second loop of [prepareInventory] does to a host
    record. *)
Definition configureHost (g addr name : string) (h : AnsibleHost) : AnsibleHost :=
  SetVar ansibleEtcdMasterNameHostVar name
    (SetVar ansibleEtcdMasterAddrHostVar addr (SetGroup g h)).

(** Boolean forms of the conditions on the records of the event's nodes,
    for checking them on a given cluster. *)
Definition liveIfAnsible (hp : gmap loc AnsibleHost) (c : string * node) : bool :=
  match Cfg c.2 with
  | AnsibleHostRef p => bool_decide (is_Some (hp !! p))
  | ForeignHost _ => true
  end.

Definition liveAnsible (hp : gmap loc AnsibleHost) (c : string * node) : bool :=
  match Cfg c.2 with
  | AnsibleHostRef p => bool_decide (is_Some (hp !! p))
  | ForeignHost _ => false
  end.

Definition readableIfMaster (s : Store) (enodes : gmap string node)
    (c : string * node) : bool :=
  negb (isExistingMaster s enodes c)
  || bool_decide (is_Some (readTag (hostHeap s) (Cfg c.2))).

Definition pointsElsewhere (p : loc) (c : string * node) : bool :=
  negb (bool_decide (Cfg c.2 = AnsibleHostRef p)).





(** The inventory after a setter went over all the names, failures or not. *)
Definition appliedToAll (cb : StatusCb) (names : list string) (i : Inv) : Inv :=
  foldl (fun i name => (cb name i).1) i names.

Definition updateFailed (name : string) (err : option error) : LogEntry :=
  mkLog ErrorLevel "failed to update the asset status of %s. Error: %v"
    [ArgStr name; ArgErr err].

(** What the best-effort helper logs: one record per name whose setter
    failed. *)
Fixpoint bestEffortLog (cb : StatusCb) (names : list string) (i : Inv)
  : list LogEntry :=
  match names with
  | [] => []
  | name :: rest =>
      (if isNil (cb name i).2 then [] else [updateFailed name (cb name i).2])
      ++ bestEffortLog cb rest (cb name i).1
  end.

(** The job that [process] registers for the event [e]. *)
Definition commissionJob (e : loc) : Job :=
  {| runner := configureOrCleanupOnErrorRunner e;
     doneCb := commissionDone e;
     jobStatus := Active |}.

(** One of the three steps that [process] runs with the gate acquired,
    validation, inventory preparation or the atomic provisioning transition,
    returns the error [err], the steps before it having returned nil; [s0] is
    the store the first step starts from and [s] the one the failing step
    leaves. *)
Definition stepFails (e : loc) (s0 : Store) (err : error) (s : Store) : Prop :=
  eventValidate e s0 = Ret (Some err) s
  ∨ (∃ s1, eventValidate e s0 = Ret None s1
           ∧ prepareInventory e s1 = Ret (Some err) s)
  ∨ (∃ s1 s2 ev2,
       eventValidate e s0 = Ret None s1
       ∧ prepareInventory e s1 = Ret None s2
       ∧ events s2 !! e = Some ev2
       ∧ setAssetsStatusAtomic (nodeNames ev2)
           SetAssetProvisioning SetAssetUnallocated s2 = Ret (Some err) s).

(** The outcome of [process] once the gate is acquired, with the manager
    the given step left: an error resets the gate, a panic leaves the job
    registered, and nil after the last step starts the goroutine. *)
Definition afterAtomic (e : loc) (gs : list Goroutine)
    (o : Outcome Store (option error)) : Outcome Manager (option error) :=
  match o with
  | Ret None s3 => Ret None (mkManager s3 (Some (commissionJob e)) (gs ++ [GoRunActiveJob]))
  | Ret (Some err) s3 => Ret (Some err) (mkManager s3 None gs)
  | Panic msg s3 => Panic msg (mkManager s3 (Some (commissionJob e)) gs)
  end.

Definition afterPrepare (e : loc) (gs : list Goroutine)
    (o : Outcome Store (option error)) : Outcome Manager (option error) :=
  match o with
  | Ret None s2 =>
      match events s2 !! e with
      | Some ev2 =>
          afterAtomic e gs
            (setAssetsStatusAtomic (nodeNames ev2)
               SetAssetProvisioning SetAssetUnallocated s2)
      | None => Panic nilDereference (mkManager s2 (Some (commissionJob e)) gs)
      end
  | Ret (Some err) s2 => Ret (Some err) (mkManager s2 None gs)
  | Panic msg s2 => Panic msg (mkManager s2 (Some (commissionJob e)) gs)
  end.

Definition afterValidate (e : loc) (gs : list Goroutine)
    (o : Outcome Store (option error)) : Outcome Manager (option error) :=
  match o with
  | Ret None s1 => afterPrepare e gs (prepareInventory e s1)
  | Ret (Some err) s1 => Ret (Some err) (mkManager s1 None gs)
  | Panic msg s1 => Panic msg (mkManager s1 (Some (commissionJob e)) gs)
  end.

(** The status a run of the engine resolves to, from the world [x] in which
    it is started, and the world it leaves. *)
Definition runStatus
    (entry : gmap loc AnsibleHost -> SubsysHosts -> string -> Ext ->
             Ext * (OutReader * CancelFunc * ErrCh))
    (hp : gmap loc AnsibleHost) (hosts : SubsysHosts) (extra : string)
    (cancelCh : CancelChannel) (jobLogs : Writer) (x : Ext) : Ext * option error :=
  let r := entry hp hosts extra x in
  logOutputAndReturnStatus r.2.1.1 r.2.2 cancelCh r.2.1.2 jobLogs r.1.
End Notions.

(** ** Properties *)

Section Properties.
Context {IS : InventorySubsys} {CS : ConfigurationSubsys} {ME : ManagerEnv}.

Lemma bind_eq {S A B} (c : M S A) (k : A -> M S B) (s : S) :
  (c ≫= k) s = match c s with
               | Ret a s' => k a s'
               | Panic msg s' => Panic msg s'
               end.
Proof. reflexivity. Qed.

Lemma addLogs_nil (s : Store) : addLogs [] s = s.
Proof. destruct s. unfold addLogs, set_logs. simpl. by rewrite app_nil_r. Qed.

Lemma addLogs_app (l1 l2 : list LogEntry) (s : Store) :
  addLogs l2 (addLogs l1 s) = addLogs (l1 ++ l2) s.
Proof. unfold addLogs, set_logs. simpl. by rewrite app_assoc. Qed.

Lemma set_store_id (m : Manager) : set_store (store m) m = m.
Proof. by destruct m. Qed.

(** *** The topology scan *)

Lemma scanNodes_step_skip enodes (c : string * node) rest (s : Store) :
  isExistingMaster s enodes c = false ->
  scanNodes enodes (c :: rest) s
  = scanNodes enodes rest (addLogs (checkLog s enodes c) s).
Proof.
  destruct c as [name nd]. intros Hno.
  unfold isExistingMaster, checkLog in *. simpl in *.
  destruct (enodes !! name) as [x|] eqn:Hin.
  - rewrite !bool_decide_eq_true_2 by eauto.
    rewrite addLogs_nil. reflexivity.
  - rewrite !(bool_decide_eq_false_2 (is_Some None)) by (by intros [? ?]).
    rewrite bind_eq. unfold mgr_isDiscoveredAndAllocatedNode at 1, gets.
    rewrite bool_decide_eq_true_2 in Hno by done. simpl in Hno.
    destruct (isDiscoveredAndAllocatedNode _ _ _ name) as [da [err|]]; simpl in *.
    + reflexivity.
    + destruct da; simpl in *.
      * rewrite bind_eq. unfold mgr_isMasterNode at 1, gets.
        destruct (isMasterNode _ _ _ name) as [ms [err|]]; simpl in *.
        -- reflexivity.
        -- destruct ms; simpl in *; [done|]. rewrite addLogs_nil. reflexivity.
      * rewrite addLogs_nil. reflexivity.
Qed.

Lemma scanNodes_step_found enodes (c : string * node) rest (s : Store) tg :
  isExistingMaster s enodes c = true ->
  readTag (hostHeap s) (Cfg c.2) = Some tg ->
  scanNodes enodes (c :: rest) s = Ret (mgmtAddress (Mon c.2), tg, true) s.
Proof.
  destruct c as [name nd]. intros Hyes Htag.
  unfold isExistingMaster in Hyes. simpl in *.
  apply andb_true_iff in Hyes as [Hyes Hms].
  apply andb_true_iff in Hyes as [Hin Hda].
  apply bool_decide_eq_true_1 in Hin.
  rewrite bool_decide_eq_false_2 by (rewrite Hin; by intros [? ?]).
  rewrite bind_eq. unfold mgr_isDiscoveredAndAllocatedNode, gets.
  destruct (isDiscoveredAndAllocatedNode _ _ _ name) as [da [err|]];
    simpl in *; [done|].
  destruct da; [|done]. simpl.
  rewrite bind_eq. unfold mgr_isMasterNode, gets.
  destruct (isMasterNode _ _ _ name) as [ms [err|]]; simpl in *; [done|].
  destruct ms; [|done]. simpl.
  rewrite bind_eq. unfold SubsysHost_GetTag.
  destruct (Cfg nd) as [p|t]; simpl in *.
  - rewrite bind_eq. unfold getHost.
    destruct (hostHeap s !! p) as [h|]; simpl in *; [|done].
    injection Htag as <-. reflexivity.
  - injection Htag as <-. reflexivity.
Qed.

Lemma isExistingMaster_addLogs ls s enodes c :
  isExistingMaster (addLogs ls s) enodes c = isExistingMaster s enodes c.
Proof. reflexivity. Qed.

Lemma checkLog_addLogs ls s enodes c :
  checkLog (addLogs ls s) enodes c = checkLog s enodes c.
Proof. reflexivity. Qed.

Lemma scanNodes_none enodes l (s : Store) :
  Forall (fun c => isExistingMaster s enodes c = false) l ->
  scanNodes enodes l s = Ret ("", "", false) (addLogs (scanLog s enodes l) s).
Proof.
  revert s. induction l as [|c l IH]; intros s Hall.
  - unfold scanLog. simpl. by rewrite addLogs_nil.
  - apply Forall_cons in Hall as [Hc Hall].
    rewrite scanNodes_step_skip by done.
    rewrite IH by done.
    rewrite addLogs_app. reflexivity.
Qed.

Lemma scanNodes_first enodes l1 c l2 (s : Store) tg :
  Forall (fun c => isExistingMaster s enodes c = false) l1 ->
  isExistingMaster s enodes c = true ->
  readTag (hostHeap s) (Cfg c.2) = Some tg ->
  scanNodes enodes (l1 ++ c :: l2) s
  = Ret (mgmtAddress (Mon c.2), tg, true) (addLogs (scanLog s enodes l1) s).
Proof.
  revert s. induction l1 as [|c1 l1 IH]; intros s Hall Hc Htag.
  - unfold scanLog. simpl. rewrite addLogs_nil.
    by apply scanNodes_step_found.
  - apply Forall_cons in Hall as [Hc1 Hall]. simpl app.
    rewrite scanNodes_step_skip by done.
    rewrite IH by done.
    rewrite addLogs_app. reflexivity.
Qed.
Lemma scanNodes_existingMaster_some enodes (s : Store) i name nd tg :
  existingMaster s enodes = Some (i, (name, nd)) ->
  readTag (hostHeap s) (Cfg nd) = Some tg ->
  scanNodes enodes (rangeOrder (nodes s)) s
  = Ret (mgmtAddress (Mon nd), tg, true)
        (addLogs (scanLog s enodes (take i (rangeOrder (nodes s)))) s).
Proof.
  unfold existingMaster. intros Hfind Htag.
  apply list_find_Some in Hfind as (Hi & Hp & Hbefore).
  rewrite <- (take_drop_middle _ _ _ Hi) at 1.
  apply (scanNodes_first enodes _ (name, nd)); [|by apply Is_true_eq_true|done].
  apply Forall_forall. intros c Hc.
  apply list_elem_of_lookup in Hc as [j Hj].
  pose proof (lookup_lt_Some _ _ _ Hj) as Hlt. rewrite length_take in Hlt.
  rewrite lookup_take_lt in Hj by lia.
  specialize (Hbefore j c Hj ltac:(lia)).
  by destruct (isExistingMaster s enodes c).
Qed.

Lemma scanNodes_existingMaster_none enodes (s : Store) :
  existingMaster s enodes = None ->
  scanNodes enodes (rangeOrder (nodes s)) s
  = Ret ("", "", false) (addLogs (scanLog s enodes (rangeOrder (nodes s))) s).
Proof.
  unfold existingMaster. intros Hfind.
  apply list_find_None in Hfind.
  apply scanNodes_none.
  eapply Forall_impl; [exact Hfind|]. simpl. intros c Hc.
  by destruct (isExistingMaster s enodes c).
Qed.

(** *** The loop that builds the host records *)

Lemma set_hostHeap_id (s : Store) : set_hostHeap (hostHeap s) s = s.
Proof. by destruct s. Qed.

Lemma buildHosts_step g addr name (c : string * node) rest hosts (s : Store) p h :
  Cfg c.2 = AnsibleHostRef p ->
  hostHeap s !! p = Some h ->
  buildHosts g addr name (c :: rest) hosts s
  = buildHosts g addr name rest (hosts ++ [p])
      (set_hostHeap (<[p := configureHost g addr name h]> (hostHeap s)) s).
Proof.
  destruct c as [x nd]. simpl. intros Hcfg Hp.
  rewrite bind_eq, Hcfg. simpl.
  unfold AnsibleHost_SetGroup, AnsibleHost_SetVar.
  rewrite !bind_eq. unfold getHost at 1. rewrite Hp. simpl.
  rewrite !bind_eq. unfold getHost at 1. simpl. rewrite lookup_insert_eq. simpl.
  rewrite !bind_eq. unfold getHost at 1. simpl. rewrite lookup_insert_eq. simpl.
  rewrite !insert_insert_eq. reflexivity.
Qed.

Lemma configureHost_configured g addr name h :
  ansibleEtcdMasterAddrHostVar ≠ ansibleEtcdMasterNameHostVar ->
  configured g addr name (configureHost g addr name h).
Proof.
  intros Hne. unfold configured, configureHost. simpl. split; [done|]. split.
  - rewrite lookup_insert_ne by done. apply lookup_insert_eq.
  - apply lookup_insert_eq.
Qed.

Lemma configureHost_tag g addr name h : tag (configureHost g addr name h) = tag h.
Proof. reflexivity. Qed.

(** With live [*AnsibleHost] records throughout, the loop returns the
    pointers in the order of the iteration.  Whatever holds of every record
    that went through one round holds of every visited record at the end;
    nothing but the visited host records is touched. *)
Lemma buildHosts_ok g addr name (P : AnsibleHost -> Prop) l :
  (∀ h, P (configureHost g addr name h)) ->
  ∀ hosts (s : Store),
    Forall (fun c => carriesAnsibleHost (hostHeap s) c.2) l ->
    ∃ hp',
      buildHosts g addr name l hosts s
      = Ret (hosts ++ omap hostPtr l) (set_hostHeap hp' s)
      ∧ (∀ p, is_Some (hp' !! p) ↔ is_Some (hostHeap s !! p))
      ∧ (∀ p h, hostHeap s !! p = Some h -> P h -> ∃ h', hp' !! p = Some h' ∧ P h')
      ∧ (∀ c, c ∈ l ->
           ∃ p h', Cfg c.2 = AnsibleHostRef p ∧ p ∈ omap hostPtr l
                   ∧ hp' !! p = Some h' ∧ P h')
      ∧ (∀ p, p ∉ omap hostPtr l -> hp' !! p = hostHeap s !! p)
      ∧ (∀ p h h', hostHeap s !! p = Some h -> hp' !! p = Some h' -> tag h' = tag h).
Proof.
  intros HP. induction l as [|c l IH]; intros hosts s Hall.
  - exists (hostHeap s). simpl. rewrite app_nil_r, set_hostHeap_id.
    split; [done|]. split; [done|]. split; [eauto|].
    split; [intros c Hc; by apply elem_of_nil in Hc|]. split; [done|].
    intros p h h' Ha Hb. congruence.
  - apply Forall_cons in Hall as [(p & Hcfg & [h Hp]) Hall].
    rewrite (buildHosts_step _ _ _ _ _ _ _ p h) by done.
    set (s1 := set_hostHeap (<[p := configureHost g addr name h]> (hostHeap s)) s).
    assert (∀ q, is_Some (hostHeap s1 !! q) ↔ is_Some (hostHeap s !! q)) as Hdom.
    { intros q. simpl. destruct (decide (p = q)) as [<-|Hq].
      - rewrite lookup_insert_eq, Hp. split; eauto.
      - by rewrite lookup_insert_ne. }
    destruct (IH (hosts ++ [p]) s1) as (hp' & Hrun & Hdom' & Hkeep & Hvis & Hout & Htag).
    { eapply Forall_impl; [exact Hall|]. simpl.
      intros c' (q & Hq & Hlive). exists q. split; [done|]. by apply Hdom. }
    assert (omap hostPtr (c :: l) = p :: omap hostPtr l) as Hptrs.
    { simpl. unfold hostPtr at 1. by rewrite Hcfg. }
    rewrite Hptrs.
    exists hp'. split.
    { rewrite Hrun. simpl. by rewrite <- app_assoc. }
    split; [intros q; by rewrite Hdom', Hdom|].
    assert (∃ h', hp' !! p = Some h' ∧ P h') as Hpdone.
    { apply (Hkeep p (configureHost g addr name h)); [|done].
      simpl. apply lookup_insert_eq. }
    split.
    { intros q hq Hq Hconf. destruct (decide (p = q)) as [<-|Hpq]; [done|].
      apply (Hkeep q hq); [|done]. simpl. by rewrite lookup_insert_ne. }
    split.
    { intros c' Hc'. apply elem_of_cons in Hc' as [->|Hc'].
      - destruct Hpdone as (h' & ? & ?). exists p, h'.
        split; [done|]. split; [apply elem_of_cons; by left|done].
      - destruct (Hvis c' Hc') as (q & h' & ? & ? & ? & ?). exists q, h'.
        split; [done|]. split; [apply elem_of_cons; by right|done]. }
    split.
    { intros q Hq. apply not_elem_of_cons in Hq as [Hqp Hq].
      rewrite (Hout q Hq). simpl. by rewrite lookup_insert_ne. }
    intros q hq hq' Hq Hq'. destruct (decide (p = q)) as [<-|Hpq].
    + rewrite (Htag p (configureHost g addr name h) hq'); [|apply lookup_insert_eq|done].
      rewrite configureHost_tag. congruence.
    + apply (Htag q hq hq'); [|done]. simpl. by rewrite lookup_insert_ne.
Qed.

(** A record of another dynamic type makes the loop panic at the type
    assertion. *)
Lemma buildHosts_panic g addr name l :
  ∀ hosts (s : Store),
    Forall (fun c => ∀ p, Cfg c.2 = AnsibleHostRef p -> is_Some (hostHeap s !! p)) l ->
    Exists (fun c => ∃ t, Cfg c.2 = ForeignHost t) l ->
    ∃ s', buildHosts g addr name l hosts s = Panic badConversion s'.
Proof.
  induction l as [|c l IH]; intros hosts s Hlive Hex.
  - by apply Exists_nil in Hex.
  - apply Forall_cons in Hlive as [Hc Hlive].
    destruct (Cfg c.2) as [p|t] eqn:Hcfg.
    + destruct (Hc p eq_refl) as [h Hp].
      rewrite (buildHosts_step _ _ _ _ _ _ _ p h) by done.
      apply IH.
      * eapply Forall_impl; [exact Hlive|]. simpl. intros c' Hc' q Hq.
        destruct (decide (p = q)) as [<-|Hpq].
        -- rewrite lookup_insert_eq. eauto.
        -- rewrite lookup_insert_ne by done. by apply Hc'.
      * apply Exists_cons in Hex as [[t Ht]|Hex]; [congruence|done].
    + exists s. destruct c as [x nd]. simpl in *.
      rewrite bind_eq, Hcfg. reflexivity.
Qed.
(** *** [prepareInventory] *)

Lemma rangeOrder_elem (m : gmap string node) name nd :
  (∀ m, rangeOrder m ≡ₚ map_to_list m) ->
  (name, nd) ∈ rangeOrder m ↔ m !! name = Some nd.
Proof. intros Hperm. rewrite (Hperm m). apply elem_of_map_to_list. Qed.

Lemma length_hostPtrs (l : list (string * node)) :
  Forall (fun c => is_Some (hostPtr c)) l ->
  length (omap hostPtr l) = length l.
Proof.
  induction 1 as [|c l [p Hp] Hall IH]; [done|].
  simpl. rewrite Hp. simpl. f_equal. exact IH.
Qed.

Lemma prepareInventory_after_scan e (s : Store) ev addr name found ls :
  events s !! e = Some ev ->
  scanNodes (_enodes ev) (rangeOrder (nodes s)) s = Ret (addr, name, found) (addLogs ls s) ->
  prepareInventory e s
  = if negb found && String.eqb (hostGroup ev) ansibleWorkerGroupName
    then Ret (Some topologyError) (addLogs ls s)
    else match buildHosts (hostGroup ev) addr name (rangeOrder (_enodes ev)) []
                 (addLogs ls s) with
         | Ret hosts s2 =>
             Ret None (set_events (<[e := set_hosts hosts ev]> (events s2)) s2)
         | Panic msg s2 => Panic msg s2
         end.
Proof.
  intros He Hscan. unfold prepareInventory.
  rewrite bind_eq. unfold getEvent at 1. rewrite He.
  rewrite bind_eq. unfold gets at 1.
  rewrite bind_eq, Hscan.
  destruct (negb found && String.eqb (hostGroup ev) ansibleWorkerGroupName); [done|].
  rewrite bind_eq.
  destruct (buildHosts _ _ _ _ _ _) as [hosts s2|msg s2]; [|done].
  reflexivity.
Qed.

Lemma prepareInventory_configures e (s : Store) ev addr name found ls
    (P : AnsibleHost -> Prop) :
  (∀ m, rangeOrder m ≡ₚ map_to_list m) ->
  events s !! e = Some ev ->
  enodesCarryAnsibleHosts s ev ->
  scanNodes (_enodes ev) (rangeOrder (nodes s)) s = Ret (addr, name, found) (addLogs ls s) ->
  negb found && String.eqb (hostGroup ev) ansibleWorkerGroupName = false ->
  (∀ h, P (configureHost (hostGroup ev) addr name h)) ->
  ∃ hp' hosts,
    prepareInventory e s
    = Ret None (set_events (<[e := set_hosts hosts ev]> (events s))
                  (set_hostHeap hp' (addLogs ls s)))
    ∧ length hosts = size (_enodes ev)
    ∧ (∀ x nd, _enodes ev !! x = Some nd ->
         ∃ p h, Cfg nd = AnsibleHostRef p ∧ p ∈ hosts ∧ hp' !! p = Some h ∧ P h)
    ∧ (∀ p h h', hostHeap s !! p = Some h -> hp' !! p = Some h' -> tag h' = tag h).
Proof.
  intros Hperm He Hlive Hscan Hgo HP.
  rewrite (prepareInventory_after_scan _ _ _ _ _ _ _ He Hscan), Hgo.
  destruct (buildHosts_ok (hostGroup ev) addr name P (rangeOrder (_enodes ev)) HP
              [] (addLogs ls s))
    as (hp' & Hrun & _ & _ & Hvis & _ & Htag).
  { apply Forall_forall. intros [x nd] Hc.
    apply (rangeOrder_elem _ _ _ Hperm) in Hc. simpl. by apply (Hlive x). }
  rewrite Hrun. exists hp', (omap hostPtr (rangeOrder (_enodes ev))).
  split; [reflexivity|]. split.
  { rewrite <- (length_map_to_list (_enodes ev)), <- (Hperm (_enodes ev)).
    assert (Forall (fun c => is_Some (hostPtr c)) (rangeOrder (_enodes ev))) as Hall.
    { apply Forall_forall. intros [x nd] Hc.
      apply (rangeOrder_elem _ _ _ Hperm) in Hc.
      destruct (Hlive x nd Hc) as (p & Hp & _). unfold hostPtr. simpl.
      rewrite Hp. eauto. }
    by apply length_hostPtrs. }
  split.
  { intros x nd Hx. apply (rangeOrder_elem _ _ _ Hperm) in Hx.
    destruct (Hvis _ Hx) as (p & h & ? & ? & ? & ?). by exists p, h. }
  exact Htag.
Qed.
Lemma scanNodes_outcome enodes (s : Store) :
  masterReadable s enodes ->
  scanNodes enodes (rangeOrder (nodes s)) s
  = Ret ((masterVars s enodes).1, (masterVars s enodes).2,
         bool_decide (is_Some (existingMaster s enodes)))
        (addLogs (scanLog s enodes (scanned s enodes)) s).
Proof.
  intros Hread. unfold masterVars, scanned.
  destruct (existingMaster s enodes) as [[i [name nd]]|] eqn:Hm.
  - destruct (Hread i name nd Hm) as [tg Htag].
    rewrite (scanNodes_existingMaster_some _ _ _ _ _ _ Hm Htag), Htag. simpl.
    reflexivity.
  - rewrite (scanNodes_existingMaster_none _ _ Hm). reflexivity.
Qed.

Lemma isExistingMaster_true (s : Store) enodes name nd :
  isExistingMaster s enodes (name, nd) = true ↔
  enodes !! name = None
  ∧ isDiscoveredAndAllocatedNode (nodes s) (inventory s) (hostHeap s) name = (true, None)
  ∧ isMasterNode (nodes s) (inventory s) (hostHeap s) name = (true, None).
Proof.
  unfold isExistingMaster. simpl.
  destruct (isDiscoveredAndAllocatedNode _ _ _ name) as [[|] [err|]];
    destruct (isMasterNode _ _ _ name) as [[|] [err'|]]; simpl;
    rewrite ?andb_true_r, ?andb_false_r, ?bool_decide_eq_true;
    (split; [done|by intros (? & ? & ?)]).
Qed.

(** C2: the topology scan of [prepareInventory] goes over the nodes of the
    registry in the order [range] yields them.  The master it takes is a
    node of the registry that is not a node of the event and for which
    both queries, discovered-and-allocated and master-group, answer yes
    without an error; every candidate before it is a node of the event or
    fails one of the two queries, an error counting as a failure.  The
    errors met up to there are logged, [prepareInventory] still returns
    nil, and every new node's host record holds the management address
    and the tag of that master under the two master variables. *)
Theorem prepareInventory_takes_first_master e (s : Store) ev i mname mnode mtag :
  (∀ m, rangeOrder m ≡ₚ map_to_list m) ->
  ansibleEtcdMasterAddrHostVar ≠ ansibleEtcdMasterNameHostVar ->
  events s !! e = Some ev ->
  enodesCarryAnsibleHosts s ev ->
  existingMaster s (_enodes ev) = Some (i, (mname, mnode)) ->
  readTag (hostHeap s) (Cfg mnode) = Some mtag ->
  (nodes s !! mname = Some mnode
   ∧ _enodes ev !! mname = None
   ∧ isDiscoveredAndAllocatedNode (nodes s) (inventory s) (hostHeap s) mname
     = (true, None)
   ∧ isMasterNode (nodes s) (inventory s) (hostHeap s) mname = (true, None)
   ∧ ∀ j name nd,
       j < i -> rangeOrder (nodes s) !! j = Some (name, nd) ->
       ¬ (_enodes ev !! name = None
          ∧ isDiscoveredAndAllocatedNode (nodes s) (inventory s) (hostHeap s) name
            = (true, None)
          ∧ isMasterNode (nodes s) (inventory s) (hostHeap s) name = (true, None)))
  ∧ ∃ s' ev',
      prepareInventory e s = Ret None s'
      ∧ logs s' = logs s ++ scanLog s (_enodes ev) (take i (rangeOrder (nodes s)))
      ∧ events s' !! e = Some ev'
      ∧ ∀ x nd, _enodes ev !! x = Some nd ->
          ∃ p h, Cfg nd = AnsibleHostRef p ∧ p ∈ _hosts ev'
                 ∧ hostHeap s' !! p = Some h
                 ∧ vars h !! ansibleEtcdMasterAddrHostVar
                   = Some (mgmtAddress (Mon mnode))
                 ∧ vars h !! ansibleEtcdMasterNameHostVar = Some mtag.
Proof.
  intros Hperm Hne He Hlive Hm Htag. split.
  - pose proof Hm as Hfind. unfold existingMaster in Hfind.
    apply list_find_Some in Hfind as (Hi & Hp & Hbefore).
    apply Is_true_eq_true, isExistingMaster_true in Hp as (Hout & Hda & Hms).
    split; [|split; [done|split; [done|split; [done|]]]].
    { apply (rangeOrder_elem _ _ _ Hperm). apply list_elem_of_lookup. eauto. }
    intros j name nd Hj Hlook Hyes.
    apply (Hbefore j (name, nd) Hlook Hj).
    apply Is_true_eq_left. by apply isExistingMaster_true.
  - destruct (prepareInventory_configures e s ev (mgmtAddress (Mon mnode)) mtag true
                (scanLog s (_enodes ev) (take i (rangeOrder (nodes s))))
                (configured (hostGroup ev) (mgmtAddress (Mon mnode)) mtag))
      as (hp' & hosts & Hrun & _ & Hvis & _); try done.
    { by apply (scanNodes_existingMaster_some _ _ _ mname). }
    { intros h. by apply configureHost_configured. }
    eexists _, (set_hosts hosts ev). split; [exact Hrun|].
    split; [reflexivity|]. split; [simpl; apply lookup_insert_eq|].
    intros x nd Hx. destruct (Hvis x nd Hx) as (p & h & ? & ? & ? & _ & ? & ?).
    by exists p, h.
Qed.

(** C7: when the scan raises no topology error, [prepareInventory] returns
    nil and leaves in the event one host record per resolved node; the
    record of every resolved node has the requested host group as its
    group and holds, under the two master variables, the master address
    and master name that the scan yielded. *)
Theorem prepareInventory_host_configs e (s : Store) ev :
  (∀ m, rangeOrder m ≡ₚ map_to_list m) ->
  ansibleEtcdMasterAddrHostVar ≠ ansibleEtcdMasterNameHostVar ->
  events s !! e = Some ev ->
  enodesCarryAnsibleHosts s ev ->
  masterReadable s (_enodes ev) ->
  is_Some (existingMaster s (_enodes ev)) ∨ hostGroup ev ≠ ansibleWorkerGroupName ->
  ∃ s' ev',
    prepareInventory e s = Ret None s'
    ∧ events s' !! e = Some ev'
    ∧ length (_hosts ev') = size (_enodes ev)
    ∧ ∀ x nd, _enodes ev !! x = Some nd ->
        ∃ p h, Cfg nd = AnsibleHostRef p ∧ p ∈ _hosts ev'
               ∧ hostHeap s' !! p = Some h
               ∧ group h = hostGroup ev
               ∧ vars h !! ansibleEtcdMasterAddrHostVar
                 = Some (masterVars s (_enodes ev)).1
               ∧ vars h !! ansibleEtcdMasterNameHostVar
                 = Some (masterVars s (_enodes ev)).2.
Proof.
  intros Hperm Hne He Hlive Hread Hgo.
  destruct (prepareInventory_configures e s ev _ _ _ _
              (configured (hostGroup ev) (masterVars s (_enodes ev)).1
                 (masterVars s (_enodes ev)).2)
              Hperm He Hlive (scanNodes_outcome _ _ Hread))
    as (hp' & hosts & Hrun & Hlen & Hvis & _).
  { destruct Hgo as [Hsome|Hgrp].
    - by rewrite bool_decide_eq_true_2.
    - apply andb_false_iff. right. by apply String.eqb_neq. }
  { intros h. by apply configureHost_configured. }
  eexists _, (set_hosts hosts ev). split; [exact Hrun|].
  split; [simpl; apply lookup_insert_eq|]. split; [exact Hlen|].
  intros x nd Hx. destruct (Hvis x nd Hx) as (p & h & ? & ? & ? & ? & ? & ?).
  by exists p, h.
Qed.

(** C9, as amended: [prepareInventory] recovers each resolved node's record
    by an unchecked type assertion, which it reaches only when the scan has
    raised no topology error.  When the scan finds no existing master and the
    requested group is the worker group, [prepareInventory] returns the
    topology error, whatever the records of the resolved nodes are.
    Otherwise a resolved node whose record is not an [*AnsibleHost] makes
    [prepareInventory] panic with the failed conversion, it does not return
    an error; and it returns nil when all resolved nodes carry
    [*AnsibleHost] records. *)
Theorem prepareInventory_panics_on_other_record e (s : Store) ev :
  (∀ m, rangeOrder m ≡ₚ map_to_list m) ->
  events s !! e = Some ev ->
  masterReadable s (_enodes ev) ->
  (∀ x nd p, _enodes ev !! x = Some nd -> Cfg nd = AnsibleHostRef p ->
             is_Some (hostHeap s !! p)) ->
  (existingMaster s (_enodes ev) = None ->
   hostGroup ev = ansibleWorkerGroupName ->
   prepareInventory e s
   = Ret (Some topologyError)
         (addLogs (scanLog s (_enodes ev) (rangeOrder (nodes s))) s))
  ∧ (is_Some (existingMaster s (_enodes ev))
     ∨ hostGroup ev ≠ ansibleWorkerGroupName ->
     (∀ x nd t, _enodes ev !! x = Some nd -> Cfg nd = ForeignHost t ->
        ∃ s', prepareInventory e s = Panic badConversion s')
     ∧ ((∀ x nd, _enodes ev !! x = Some nd -> ∃ p, Cfg nd = AnsibleHostRef p) ->
        ∃ s', prepareInventory e s = Ret None s')).
Proof.
  intros Hperm He Hread Hlive. split.
  { intros Hm Hgrp.
    rewrite (prepareInventory_after_scan _ _ _ _ _ _ _ He
               (scanNodes_existingMaster_none _ _ Hm)).
    simpl. by rewrite Hgrp, String.eqb_refl. }
  intros Hgo.
  assert (negb (bool_decide (is_Some (existingMaster s (_enodes ev))))
          && String.eqb (hostGroup ev) ansibleWorkerGroupName = false) as Hgo'.
  { destruct Hgo as [Hsome|Hgrp].
    - by rewrite bool_decide_eq_true_2.
    - apply andb_false_iff. right. by apply String.eqb_neq. }
  split.
  - intros x nd t Hx Hcfg.
    rewrite (prepareInventory_after_scan _ _ _ _ _ _ _ He (scanNodes_outcome _ _ Hread)).
    rewrite Hgo'.
    destruct (buildHosts_panic (hostGroup ev) (masterVars s (_enodes ev)).1
                (masterVars s (_enodes ev)).2 (rangeOrder (_enodes ev)) []
                (addLogs (scanLog s (_enodes ev) (scanned s (_enodes ev))) s))
      as [s' Hrun].
    + apply Forall_forall. intros [y nd'] Hc p Hp.
      apply (rangeOrder_elem _ _ _ Hperm) in Hc. by apply (Hlive y nd' p).
    + apply Exists_exists. exists (x, nd). split; [|by exists t].
      by apply (rangeOrder_elem _ _ _ Hperm).
    + rewrite Hrun. by exists s'.
  - intros Hall.
    assert (enodesCarryAnsibleHosts s ev) as Hlive'.
    { intros x nd Hx. destruct (Hall x nd Hx) as [p Hp].
      exists p. split; [done|]. by apply (Hlive x nd). }
    destruct (prepareInventory_configures e s ev _ _ _ _ (fun _ => True)
                Hperm He Hlive' (scanNodes_outcome _ _ Hread) Hgo')
      as (hp' & hosts & Hrun & _); [done|by eexists].
Qed.

(** C10: when the scan finds no existing master and the requested group is
    the master group, [prepareInventory] returns nil and every new node's
    host record holds both master variables, each with the empty string as
    its value. *)
Theorem prepareInventory_first_master_gets_empty_vars e (s : Store) ev :
  (∀ m, rangeOrder m ≡ₚ map_to_list m) ->
  ansibleEtcdMasterAddrHostVar ≠ ansibleEtcdMasterNameHostVar ->
  ansibleMasterGroupName ≠ ansibleWorkerGroupName ->
  events s !! e = Some ev ->
  enodesCarryAnsibleHosts s ev ->
  existingMaster s (_enodes ev) = None ->
  hostGroup ev = ansibleMasterGroupName ->
  ∃ s' ev',
    prepareInventory e s = Ret None s'
    ∧ events s' !! e = Some ev'
    ∧ ∀ x nd, _enodes ev !! x = Some nd ->
        ∃ p h, Cfg nd = AnsibleHostRef p ∧ p ∈ _hosts ev'
               ∧ hostHeap s' !! p = Some h
               ∧ vars h !! ansibleEtcdMasterAddrHostVar = Some ""
               ∧ vars h !! ansibleEtcdMasterNameHostVar = Some "".
Proof.
  intros Hperm Hne Hgroups He Hlive Hm Hgrp.
  destruct (prepareInventory_configures e s ev "" "" false
              (scanLog s (_enodes ev) (rangeOrder (nodes s)))
              (configured (hostGroup ev) "" "") Hperm He Hlive)
    as (hp' & hosts & Hrun & _ & Hvis & _).
  { by apply scanNodes_existingMaster_none. }
  { simpl. apply String.eqb_neq. by rewrite Hgrp. }
  { intros h. by apply configureHost_configured. }
  eexists _, (set_hosts hosts ev). split; [exact Hrun|].
  split; [simpl; apply lookup_insert_eq|].
  intros x nd Hx. destruct (Hvis x nd Hx) as (p & h & ? & ? & ? & _ & ? & ?).
  by exists p, h.
Qed.
(** *** The runner and the completion callback *)

(** C1: the runner returns the status of the configuration run.  If that
    status is nil, the only call to the engine is the Configure call and
    nil is returned.  If it is an error, the engine is called a second
    time, through Cleanup, with the same hosts and the same extra
    parameters, the failure of the configuration is logged, a failure of
    the cleanup is only logged, and the error returned is that of the
    configuration whatever the status of the cleanup. *)
Theorem runner_returns_configure_error e cancelCh jobLogs (s : Store) ev :
  events s !! e = Some ev ->
  let cfg := runStatus Configure (hostHeap s) (_hosts ev) (extraVars ev)
               cancelCh jobLogs (configuration s) in
  let cln := runStatus Cleanup (hostHeap s) (_hosts ev) (extraVars ev)
               cancelCh jobLogs cfg.1 in
  ∃ s',
    configureOrCleanupOnErrorRunner e cancelCh jobLogs s = Ret cfg.2 s'
    ∧ engineCalls s'
      = engineCalls s ++ CallConfigure (_hosts ev) (extraVars ev)
          :: (if isNil cfg.2 then [] else [CallCleanup (_hosts ev) (extraVars ev)])
    ∧ logs s'
      = logs s ++
        (if isNil cfg.2 then []
         else mkLog ErrorLevel "configuration failed, starting cleanup. Error: %s"
                [ArgErr cfg.2]
              :: (if isNil cln.2 then []
                  else [mkLog ErrorLevel "cleanup failed. Error: %s" [ArgErr cln.2]]))
    ∧ configuration s' = (if isNil cfg.2 then cfg.1 else cln.1)
    ∧ hostHeap s' = hostHeap s ∧ events s' = events s
    ∧ inventory s' = inventory s ∧ nodes s' = nodes s.
Proof.
  intros He cfg cln. subst cfg cln. unfold runStatus.
  unfold configureOrCleanupOnErrorRunner.
  rewrite bind_eq. unfold getEvent at 1. rewrite He.
  rewrite bind_eq. unfold mgr_configuration_Configure.
  destruct (Configure (hostHeap s) (_hosts ev) (extraVars ev) (configuration s))
    as [x1 [[r1 c1] e1]]. simpl.
  rewrite bind_eq. unfold mgr_logOutputAndReturnStatus at 1. simpl.
  destruct (logOutputAndReturnStatus r1 e1 cancelCh c1 jobLogs x1) as [x2 [cfgErr|]].
  - simpl. rewrite bind_eq. simpl. rewrite bind_eq. unfold getEvent. simpl. rewrite He.
    rewrite bind_eq. unfold mgr_configuration_Cleanup. simpl.
    destruct (Cleanup (hostHeap s) (_hosts ev) (extraVars ev) x2)
      as [x3 [[r2 c2] e2]]. simpl.
    rewrite bind_eq. unfold mgr_logOutputAndReturnStatus. simpl.
    destruct (logOutputAndReturnStatus r2 e2 cancelCh c2 jobLogs x3) as [x4 [err|]].
    + simpl. eexists. split; [reflexivity|]. simpl.
      rewrite <- !app_assoc. repeat split; reflexivity.
    + simpl. eexists. split; [reflexivity|]. simpl.
      rewrite <- !app_assoc. repeat split; reflexivity.
  - simpl. eexists. split; [reflexivity|]. simpl.
    rewrite app_nil_r. repeat split; reflexivity.
Qed.

Lemma setAssetsStatusBestEffort_spec names (cb : StatusCb) (s : Store) :
  setAssetsStatusBestEffort names cb s
  = Ret tt (addLogs (bestEffortLog cb names (inventory s))
              (set_inventory (appliedToAll cb names (inventory s)) s)).
Proof.
  revert s. induction names as [|name rest IH]; intros s.
  - simpl. destruct s. unfold addLogs, set_logs, set_inventory. simpl.
    by rewrite app_nil_r.
  - simpl. rewrite bind_eq. unfold callInventory.
    destruct (cb name (inventory s)) as [i err] eqn:Hcb. simpl.
    rewrite bind_eq. destruct err as [err|]; simpl.
    + rewrite IH. simpl. unfold addLogs, set_logs, set_inventory. simpl.
      by rewrite <- app_assoc.
    + rewrite IH. reflexivity.
Qed.
(** *** [process] *)

Lemma eventValidate_valid_group e (s : Store) ev :
  events s !! e = Some ev ->
  IsValidHostGroup (hostGroup ev) = true ->
  eventValidate e s
  = Ret (commonEventValidate (nodes s) (inventory s) (hostHeap s) (nodeNames ev)).2
      (set_events
         (<[e := set_enodes
                   (commonEventValidate (nodes s) (inventory s) (hostHeap s)
                      (nodeNames ev)).1 ev]> (events s)) s).
Proof.
  intros He Hgrp. unfold eventValidate.
  rewrite bind_eq. unfold getEvent. rewrite He, Hgrp. simpl.
  rewrite bind_eq. unfold mgr_commonEventValidate, gets.
  by destruct (commonEventValidate _ _ _ _) as [enodes err].
Qed.

Lemma process_free_gate e (m : Manager) ev :
  events (store m) !! e = Some ev ->
  activeJob m = None ->
  process e m = afterValidate e (goroutines m) (eventValidate e (store m)).
Proof.
  intros He Hfree. unfold process.
  rewrite bind_eq. unfold liftStore at 1, getEvent at 1. rewrite He.
  rewrite bind_eq. unfold checkAndSetActiveJob. simpl. rewrite Hfree. simpl.
  unfold withDefer, processSteps.
  rewrite bind_eq. unfold liftStore at 1. simpl.
  destruct (eventValidate e (store m)) as [[err|] s1|msg s1]; simpl; [done| |done].
  rewrite bind_eq. unfold liftStore at 1. simpl.
  destruct (prepareInventory e s1) as [[err|] s2|msg s2]; simpl; [done| |done].
  rewrite bind_eq. unfold liftStore at 1, getEvent at 1. simpl.
  destruct (events s2 !! e) as [ev2|]; simpl; [|done].
  rewrite bind_eq. unfold liftStore at 1. simpl.
  destruct (setAssetsStatusAtomic _ _ _ s2) as [[err|] s3|msg s3]; simpl; done.
Qed.

(** C4: while another job is active, [process] returns the already-active
    error that names that job and leaves the whole manager as it was: no
    validation, no inventory preparation, no change of an asset status. *)
Theorem process_conflict e (m : Manager) ev j :
  events (store m) !! e = Some ev ->
  activeJob m = Some j ->
  process e m = Ret (Some (errActiveJob (jobString j))) m.
Proof.
  intros He Hbusy. unfold process.
  rewrite bind_eq. unfold liftStore at 1, getEvent at 1. rewrite He.
  rewrite bind_eq. unfold checkAndSetActiveJob. simpl. rewrite Hbusy. simpl.
  by rewrite set_store_id.
Qed.

(** C5: the completion callback always returns, and returns nothing.  On
    the status Errored it has applied the Unallocated setter to every
    target node name, on any other status the Commissioned setter,
    whichever of these calls failed; the failures are logged.  This is the
    callback of the job that [process] registers when it accepts the
    request. *)
Theorem commissionDone_best_effort e (s : Store) ev status errRet :
  events s !! e = Some ev ->
  let cb : StatusCb :=
    if bool_decide (status = Errored) then SetAssetUnallocated
    else SetAssetCommissioned in
  (∃ s',
     commissionDone e status errRet s = Ret tt s'
     ∧ inventory s' = appliedToAll cb (nodeNames ev) (inventory s)
     ∧ logs s'
       = logs s ++
         (if bool_decide (status = Errored)
          then [mkLog ErrorLevel "configuration job failed. Error: %v" [ArgErr errRet]]
          else [])
         ++ bestEffortLog cb (nodeNames ev) (inventory s)
     ∧ nodes s' = nodes s ∧ hostHeap s' = hostHeap s ∧ events s' = events s
     ∧ configuration s' = configuration s ∧ engineCalls s' = engineCalls s)
  ∧ ∀ m m', process e m = Ret None m' ->
      ∃ j, activeJob m' = Some j ∧ doneCb j = commissionDone e.
Proof.
  intros He cb. split.
  - subst cb. unfold commissionDone. case_bool_decide as Hst.
    + rewrite bind_eq. simpl. rewrite bind_eq. unfold getEvent. simpl. rewrite He.
      rewrite setAssetsStatusBestEffort_spec. eexists. split; [reflexivity|].
      simpl. rewrite <- app_assoc. repeat split; reflexivity.
    + rewrite bind_eq. unfold getEvent. rewrite He.
      rewrite setAssetsStatusBestEffort_spec. eexists. split; [reflexivity|].
      simpl. repeat split; reflexivity.
  - intros m m' Hrun.
    destruct (events (store m) !! e) as [ev0|] eqn:He0; cycle 1.
    { unfold process in Hrun. rewrite bind_eq in Hrun.
      unfold liftStore, getEvent in Hrun. by rewrite He0 in Hrun. }
    destruct (activeJob m) as [j|] eqn:Hgate.
    { by rewrite (process_conflict _ _ _ _ He0 Hgate) in Hrun. }
    rewrite (process_free_gate _ _ _ He0 Hgate) in Hrun.
    unfold afterValidate, afterPrepare, afterAtomic in Hrun.
    destruct (eventValidate e (store m)) as [[err|] s1|msg s1]; try done.
    destruct (prepareInventory e s1) as [[err|] s2|msg s2]; try done.
    destruct (events s2 !! e) as [ev2|]; try done.
    destruct (setAssetsStatusAtomic _ _ _ s2) as [[err|] s3|msg s3]; try done.
    injection Hrun as <-. by exists (commissionJob e).
Qed.
Lemma existingMaster_none_registry (s : Store) enodes :
  (∀ m, rangeOrder m ≡ₚ map_to_list m) ->
  (∀ name nd, nodes s !! name = Some nd ->
     ¬ (enodes !! name = None
        ∧ isDiscoveredAndAllocatedNode (nodes s) (inventory s) (hostHeap s) name
          = (true, None)
        ∧ isMasterNode (nodes s) (inventory s) (hostHeap s) name = (true, None))) ->
  existingMaster s enodes = None.
Proof.
  intros Hperm Hnone. unfold existingMaster. apply list_find_None.
  apply Forall_forall. intros [name nd] Hc Hyes.
  apply (rangeOrder_elem _ _ _ Hperm) in Hc.
  apply (Hnone name nd Hc). apply (isExistingMaster_true s enodes name nd).
  by apply Is_true_eq_true.
Qed.

(** C3: the gate is free and validation passes.  If no node of the registry
    outside the event is discovered, allocated and in the master group,
    then for the worker group [process] returns the topology error, with
    the inventory, the host records and the registry as they were, the gate
    reset and no goroutine started; for the master group
    [prepareInventory] returns nil and [process] goes on to the atomic
    provisioning transition, whose outcome decides that of [process]. *)
Theorem process_without_master e (m : Manager) ev :
  (∀ m, rangeOrder m ≡ₚ map_to_list m) ->
  ansibleMasterGroupName ≠ ansibleWorkerGroupName ->
  events (store m) !! e = Some ev ->
  activeJob m = None ->
  IsValidHostGroup (hostGroup ev) = true ->
  let s := store m in
  let v := commonEventValidate (nodes s) (inventory s) (hostHeap s) (nodeNames ev) in
  v.2 = None ->
  (∀ name nd, nodes s !! name = Some nd ->
     ¬ (v.1 !! name = None
        ∧ isDiscoveredAndAllocatedNode (nodes s) (inventory s) (hostHeap s) name
          = (true, None)
        ∧ isMasterNode (nodes s) (inventory s) (hostHeap s) name = (true, None))) ->
  (hostGroup ev = ansibleWorkerGroupName ->
     ∃ m',
       process e m = Ret (Some topologyError) m'
       ∧ inventory (store m') = inventory s
       ∧ hostHeap (store m') = hostHeap s
       ∧ nodes (store m') = nodes s
       ∧ activeJob m' = None
       ∧ goroutines m' = goroutines m)
  ∧ (hostGroup ev = ansibleMasterGroupName ->
     (∀ name nd, v.1 !! name = Some nd -> carriesAnsibleHost (hostHeap s) nd) ->
     ∃ s1 s2,
       eventValidate e s = Ret None s1
       ∧ prepareInventory e s1 = Ret None s2
       ∧ inventory s2 = inventory s
       ∧ process e m
         = afterAtomic e (goroutines m)
             (setAssetsStatusAtomic (nodeNames ev)
                SetAssetProvisioning SetAssetUnallocated s2)).
Proof.
  intros Hperm Hgroups He Hfree Hvalid s v Hv Hnone.
  pose proof (eventValidate_valid_group e s ev He Hvalid) as Hval.
  fold v in Hval. rewrite Hv in Hval.
  set (ev1 := set_enodes v.1 ev) in *.
  set (s1 := set_events (<[e := ev1]> (events s)) s) in *.
  assert (events s1 !! e = Some ev1) as He1 by (simpl; apply lookup_insert_eq).
  assert (existingMaster s1 (_enodes ev1) = None) as Hm.
  { by apply (existingMaster_none_registry s1 v.1). }
  rewrite (process_free_gate _ _ _ He Hfree). fold s. rewrite Hval. simpl.
  split.
  - intros Hgrp.
    rewrite (prepareInventory_after_scan _ _ _ _ _ _ _ He1
               (scanNodes_existingMaster_none _ _ Hm)).
    simpl. rewrite Hgrp, String.eqb_refl. simpl.
    eexists. split; [reflexivity|]. by simpl.
  - intros Hgrp Hlive.
    destruct (prepareInventory_configures e s1 ev1 "" "" false
                (scanLog s1 (_enodes ev1) (rangeOrder (nodes s1)))
                (fun _ => True) Hperm He1)
      as (hp' & hosts & Hrun & _); [done| |simpl|done|].
    { by apply scanNodes_existingMaster_none. }
    { apply String.eqb_neq. by rewrite Hgrp. }
    exists s1. eexists. split; [reflexivity|]. split; [exact Hrun|].
    split; [reflexivity|].
    rewrite Hrun. simpl. rewrite lookup_insert_eq. reflexivity.
Qed.

Lemma processSteps_fails e (m1 : Manager) err s :
  stepFails e (store m1) err s ->
  processSteps e m1 = Ret (Some err) (set_store s m1).
Proof.
  intros [Hval|[(s1 & Hval & Hprep)|(s1 & s2 & ev2 & Hval & Hprep & He2 & Hatomic)]];
    unfold processSteps.
  - rewrite bind_eq. unfold liftStore at 1. by rewrite Hval.
  - rewrite bind_eq. unfold liftStore at 1. rewrite Hval. simpl.
    rewrite bind_eq. unfold liftStore at 1. simpl. by rewrite Hprep.
  - rewrite bind_eq. unfold liftStore at 1. rewrite Hval. simpl.
    rewrite bind_eq. unfold liftStore at 1. simpl. rewrite Hprep. simpl.
    rewrite bind_eq. unfold liftStore at 1, getEvent at 1. simpl. rewrite He2. simpl.
    rewrite bind_eq. unfold liftStore at 1. simpl. by rewrite Hatomic.
Qed.

(** C6: with the gate acquired, whichever step fails, validation, inventory
    preparation or the atomic provisioning transition, the deferred function
    calls [resetActiveJob] and [process] returns that step's error as it is.
    That the call is made shows in [processWith]: whatever [reset] is run in
    the place of [resetActiveJob], the outcome is the one [reset] has on the
    manager in which the step failed, the job of the event still registered
    there, with the step's error as the value returned.  For [process] itself
    the gate is free again.  And every error that [process] returns with the
    gate acquired is the error of one of these three steps. *)
Theorem process_error_resets_gate e (m : Manager) ev :
  events (store m) !! e = Some ev ->
  activeJob m = None ->
  let held (s : Store) := mkManager s (Some (commissionJob e)) (goroutines m) in
  process e = processWith resetActiveJob e
  ∧ (∀ err s, stepFails e (store m) err s ->
       (∀ reset : M Manager unit,
          processWith reset e m
          = match reset (held s) with
            | Ret _ m' => Ret (Some err) m'
            | Panic msg m' => Panic msg m'
            end)
       ∧ process e m = Ret (Some err) (mkManager s None (goroutines m)))
  ∧ (∀ err m', process e m = Ret (Some err) m' ->
       activeJob m' = None ∧ goroutines m' = goroutines m
       ∧ stepFails e (store m) err (store m')).
Proof.
  intros He Hfree held. split; [reflexivity|].
  assert (∀ err s, stepFails e (store m) err s ->
            ∀ reset : M Manager unit,
              processWith reset e m
              = match reset (held s) with
                | Ret _ m' => Ret (Some err) m'
                | Panic msg m' => Panic msg m'
                end) as Hwith.
  { intros err s Hfails reset. unfold processWith.
    rewrite bind_eq. unfold liftStore at 1, getEvent at 1. rewrite He.
    rewrite bind_eq. unfold checkAndSetActiveJob. simpl. rewrite Hfree. simpl.
    unfold withDefer.
    rewrite (processSteps_fails e _ err s) by exact Hfails. simpl.
    reflexivity. }
  split.
  - intros err s Hfails. split; [by apply Hwith|].
    change (process e m) with (processWith resetActiveJob e m).
    by rewrite (Hwith err s Hfails resetActiveJob).
  - intros err m' Hrun. rewrite (process_free_gate _ _ _ He Hfree) in Hrun.
    unfold afterValidate, afterPrepare, afterAtomic, stepFails in *.
    destruct (eventValidate e (store m)) as [[err1|] s1|msg s1] eqn:Hval; try done.
    { injection Hrun as <- <-. simpl. split; [done|]. split; [done|]. by left. }
    destruct (prepareInventory e s1) as [[err2|] s2|msg s2] eqn:Hprep; try done.
    { injection Hrun as <- <-. simpl. split; [done|]. split; [done|].
      right. left. by exists s1. }
    destruct (events s2 !! e) as [ev2|] eqn:He2; try done.
    destruct (setAssetsStatusAtomic _ _ _ s2) as [[err3|] s3|msg s3] eqn:Hatomic;
      try done.
    injection Hrun as <- <-. simpl. split; [done|]. split; [done|].
    right. right. by exists s1, s2, ev2.
Qed.

(** C8: with the gate acquired, once validation, inventory preparation and
    the atomic provisioning transition have returned nil in this order,
    [process] starts the goroutine and returns nil; the store it leaves is
    the one the transition left, so nothing of the job has run.  And a
    goroutine is started only so: whenever [process] ends with a goroutine
    more than it began with, the transition had returned nil before. *)
Theorem process_launches_after_provisioning e (m : Manager) ev :
  events (store m) !! e = Some ev ->
  activeJob m = None ->
  let launched (s3 : Store) :=
    mkManager s3 (Some (commissionJob e)) (goroutines m ++ [GoRunActiveJob]) in
  let provisioned (s3 : Store) :=
    ∃ s1 s2 ev2,
      eventValidate e (store m) = Ret None s1
      ∧ prepareInventory e s1 = Ret None s2
      ∧ events s2 !! e = Some ev2
      ∧ setAssetsStatusAtomic (nodeNames ev2)
          SetAssetProvisioning SetAssetUnallocated s2 = Ret None s3 in
  (∀ s3, provisioned s3 -> process e m = Ret None (launched s3))
  ∧ (goroutines (finalState (process e m)) ≠ goroutines m ->
     ∃ s3, provisioned s3 ∧ process e m = Ret None (launched s3)).
Proof.
  intros He Hfree launched provisioned. subst launched provisioned. simpl.
  rewrite (process_free_gate _ _ _ He Hfree). split.
  - intros s3 (s1 & s2 & ev2 & Hval & Hprep & He2 & Hatomic).
    rewrite Hval. simpl. rewrite Hprep. simpl. by rewrite He2, Hatomic.
  - unfold afterValidate, afterPrepare, afterAtomic.
    destruct (eventValidate e (store m)) as [[err1|] s1|msg s1] eqn:Hval; try done.
    destruct (prepareInventory e s1) as [[err2|] s2|msg s2] eqn:Hprep; try done.
    destruct (events s2 !! e) as [ev2|] eqn:He2; try done.
    destruct (setAssetsStatusAtomic _ _ _ s2) as [[err3|] s3|msg s3] eqn:Hatomic;
      try done.
    intros _. exists s3. split; [|done]. by exists s1, s2, ev2.
Qed.
(** *** Checking the side conditions on a given cluster *)

Lemma enodesCarryAnsibleHosts_check (s : Store) ev :
  forallb (liveAnsible (hostHeap s)) (map_to_list (_enodes ev)) = true ->
  enodesCarryAnsibleHosts s ev.
Proof.
  intros Hall x nd Hx. apply elem_of_map_to_list in Hx.
  rewrite forallb_forall in Hall.
  specialize (Hall (x, nd)). rewrite <- list_elem_of_In in Hall.
  specialize (Hall Hx). unfold liveAnsible in Hall. simpl in Hall.
  destruct (Cfg nd) as [p|t] eqn:Hcfg; [|done].
  exists p. split; [done|]. by apply bool_decide_eq_true_1 in Hall.
Qed.

Lemma liveIfAnsible_check (hp : gmap loc AnsibleHost) (enodes : gmap string node) :
  forallb (liveIfAnsible hp) (map_to_list enodes) = true ->
  ∀ x nd p, enodes !! x = Some nd -> Cfg nd = AnsibleHostRef p -> is_Some (hp !! p).
Proof.
  intros Hall x nd p Hx Hcfg. apply elem_of_map_to_list in Hx.
  rewrite forallb_forall in Hall.
  specialize (Hall (x, nd)). rewrite <- list_elem_of_In in Hall.
  specialize (Hall Hx). unfold liveIfAnsible in Hall. simpl in Hall.
  rewrite Hcfg in Hall. by apply bool_decide_eq_true_1 in Hall.
Qed.

Lemma no_master_check (s : Store) (enodes : gmap string node) :
  forallb (fun c => negb (isExistingMaster s enodes c)) (map_to_list (nodes s)) = true ->
  ∀ name nd, nodes s !! name = Some nd ->
    ¬ (enodes !! name = None
       ∧ isDiscoveredAndAllocatedNode (nodes s) (inventory s) (hostHeap s) name
         = (true, None)
       ∧ isMasterNode (nodes s) (inventory s) (hostHeap s) name = (true, None)).
Proof.
  intros Hall name nd Hx Hyes. apply elem_of_map_to_list in Hx.
  rewrite forallb_forall in Hall.
  specialize (Hall (name, nd)). rewrite <- list_elem_of_In in Hall.
  specialize (Hall Hx).
  apply (isExistingMaster_true s enodes name nd) in Hyes. by rewrite Hyes in Hall.
Qed.

Lemma carriesAnsibleHost_check (hp : gmap loc AnsibleHost) (enodes : gmap string node) :
  forallb (liveAnsible hp) (map_to_list enodes) = true ->
  ∀ name nd, enodes !! name = Some nd -> carriesAnsibleHost hp nd.
Proof.
  intros Hall x nd Hx. apply elem_of_map_to_list in Hx.
  rewrite forallb_forall in Hall.
  specialize (Hall (x, nd)). rewrite <- list_elem_of_In in Hall.
  specialize (Hall Hx). unfold liveAnsible in Hall. simpl in Hall.
  destruct (Cfg nd) as [p|t] eqn:Hcfg; [|done].
  exists p. split; [done|]. by apply bool_decide_eq_true_1 in Hall.
Qed.
End Properties.

(** ** Further properties of the code *)

Section Further.
Context {IS : InventorySubsys} {CS : ConfigurationSubsys} {ME : ManagerEnv}.

(** *** What the two loops leave alone *)

Lemma scanNodes_step_master enodes (c : string * node) rest (s : Store) :
  isExistingMaster s enodes c = true ->
  scanNodes enodes (c :: rest) s
  = match readTag (hostHeap s) (Cfg c.2) with
    | Some tg => Ret (mgmtAddress (Mon c.2), tg, true) s
    | None => Panic nilDereference s
    end.
Proof.
  intros Hyes. destruct (readTag (hostHeap s) (Cfg c.2)) as [tg|] eqn:Htag.
  - by apply scanNodes_step_found.
  - destruct c as [name nd].
    apply isExistingMaster_true in Hyes as (Hout & Hda & Hms).
    simpl in *. rewrite bool_decide_eq_false_2 by (rewrite Hout; by intros [? ?]).
    rewrite bind_eq. unfold mgr_isDiscoveredAndAllocatedNode, gets. rewrite Hda. simpl.
    rewrite bind_eq. unfold mgr_isMasterNode, gets. rewrite Hms. simpl.
    rewrite bind_eq. unfold SubsysHost_GetTag.
    destruct (Cfg nd) as [p|t]; simpl in *; [|done].
    rewrite bind_eq. unfold getHost.
    by destruct (hostHeap s !! p).
Qed.

(** In every outcome the scan has only added to the log. *)
Lemma scanNodes_frame enodes l (s : Store) :
  ∃ ls, finalState (scanNodes enodes l s) = addLogs ls s.
Proof.
  revert s. induction l as [|c l IH]; intros s.
  - exists []. simpl. by rewrite addLogs_nil.
  - destruct (isExistingMaster s enodes c) eqn:Hc.
    + exists []. rewrite (scanNodes_step_master _ _ _ _ Hc), addLogs_nil.
      by destruct (readTag _ _).
    + rewrite (scanNodes_step_skip _ _ _ _ Hc).
      destruct (IH (addLogs (checkLog s enodes c) s)) as [ls Hls].
      exists (checkLog s enodes c ++ ls). by rewrite Hls, addLogs_app.
Qed.

(** In every outcome the second loop has only written host records: those
    its nodes point to, keeping each record's tag, and neither creating nor
    removing a record. *)
Lemma buildHosts_frame g addr name l :
  ∀ hosts (s : Store),
    ∃ hp',
      finalState (buildHosts g addr name l hosts s) = set_hostHeap hp' s
      ∧ (∀ p, p ∉ omap hostPtr l -> hp' !! p = hostHeap s !! p)
      ∧ (∀ p h h', hostHeap s !! p = Some h -> hp' !! p = Some h' -> tag h' = tag h)
      ∧ (∀ p, is_Some (hp' !! p) ↔ is_Some (hostHeap s !! p)).
Proof.
  induction l as [|c l IH]; intros hosts s.
  - exists (hostHeap s). simpl. rewrite set_hostHeap_id.
    split; [done|]. split; [done|]. split; [|done]. intros p h h' Ha Hb. congruence.
  - destruct (Cfg c.2) as [p|t] eqn:Hcfg; cycle 1.
    { exists (hostHeap s). destruct c as [x nd]. simpl in *.
      rewrite bind_eq, Hcfg. simpl. rewrite set_hostHeap_id.
      split; [done|]. split; [done|]. split; [|done]. intros q h h' Ha Hb. congruence. }
    destruct (hostHeap s !! p) as [h|] eqn:Hp; cycle 1.
    { exists (hostHeap s). destruct c as [x nd]. simpl in *.
      rewrite bind_eq, Hcfg. simpl. unfold AnsibleHost_SetGroup.
      rewrite !bind_eq. unfold getHost. rewrite Hp. simpl. rewrite set_hostHeap_id.
      split; [done|]. split; [done|]. split; [|done]. intros q h h' Ha Hb. congruence. }
    rewrite (buildHosts_step _ _ _ _ _ _ _ p h) by done.
    destruct (IH (hosts ++ [p])
                (set_hostHeap (<[p := configureHost g addr name h]> (hostHeap s)) s))
      as (hp' & Hfin & Hout & Htag & Hdom).
    exists hp'. split; [by rewrite Hfin|].
    assert (omap hostPtr (c :: l) = p :: omap hostPtr l) as Hptrs.
    { simpl. unfold hostPtr at 1. by rewrite Hcfg. }
    rewrite Hptrs. split.
    { intros q Hq. apply not_elem_of_cons in Hq as [Hqp Hq].
      rewrite (Hout q Hq). simpl. by rewrite lookup_insert_ne. }
    split.
    { intros q hq hq' Hq Hq'. destruct (decide (p = q)) as [<-|Hpq].
      - rewrite (Htag p (configureHost g addr name h) hq');
          [|simpl; apply lookup_insert_eq|done].
        rewrite configureHost_tag. congruence.
      - apply (Htag q hq hq'); [|done]. simpl. by rewrite lookup_insert_ne. }
    intros q. rewrite Hdom. simpl. destruct (decide (p = q)) as [<-|Hpq].
    + rewrite lookup_insert_eq, Hp. split; eauto.
    + by rewrite lookup_insert_ne.
Qed.

(** The outcome of [prepareInventory] in terms of its two loops. *)
Lemma prepareInventory_outcome e (s : Store) ev :
  events s !! e = Some ev ->
  prepareInventory e s
  = match scanNodes (_enodes ev) (rangeOrder (nodes s)) s with
    | Ret (addr, name, found) s1 =>
        if negb found && String.eqb (hostGroup ev) ansibleWorkerGroupName
        then Ret (Some topologyError) s1
        else match buildHosts (hostGroup ev) addr name (rangeOrder (_enodes ev)) [] s1 with
             | Ret hosts s2 =>
                 Ret None (set_events (<[e := set_hosts hosts ev]> (events s2)) s2)
             | Panic msg s2 => Panic msg s2
             end
    | Panic msg s1 => Panic msg s1
    end.
Proof.
  intros He. unfold prepareInventory.
  rewrite bind_eq. unfold getEvent at 1. rewrite He.
  rewrite bind_eq. unfold gets at 1. rewrite bind_eq.
  destruct (scanNodes _ _ s) as [[[addr name] found] s1|msg s1]; [|done].
  destruct (negb found && String.eqb (hostGroup ev) ansibleWorkerGroupName); [done|].
  rewrite bind_eq.
  by destruct (buildHosts _ _ _ _ _ _) as [hosts s2|msg s2].
Qed.

Lemma prepareInventory_nil_receiver e (s : Store) :
  events s !! e = None -> prepareInventory e s = Panic nilDereference s.
Proof.
  intros He. unfold prepareInventory. rewrite bind_eq. unfold getEvent. by rewrite He.
Qed.
(** *** [prepareInventory]: what it leaves alone *)

(** X1: whatever its outcome, return or panic, [prepareInventory] leaves the
    registry, the inventory, the engine and the other events as they were.
    The only error it returns is the topology error, and then no host record
    and no event has been written; when it panics the event has not been
    written either. *)
Theorem prepareInventory_frame e (s : Store) :
  let o := prepareInventory e s in
  nodes (finalState o) = nodes s
  ∧ inventory (finalState o) = inventory s
  ∧ configuration (finalState o) = configuration s
  ∧ engineCalls (finalState o) = engineCalls s
  ∧ (∀ e', e' ≠ e -> events (finalState o) !! e' = events s !! e')
  ∧ (∀ err s', o = Ret (Some err) s' ->
       err = topologyError ∧ hostHeap s' = hostHeap s ∧ events s' = events s)
  ∧ (∀ msg s', o = Panic msg s' -> events s' = events s).
Proof.
  simpl. destruct (events s !! e) as [ev|] eqn:He; cycle 1.
  { rewrite (prepareInventory_nil_receiver _ _ He). simpl.
    split_and!; try done. by intros msg s' [= _ <-]. }
  rewrite (prepareInventory_outcome _ _ _ He).
  destruct (scanNodes_frame (_enodes ev) (rangeOrder (nodes s)) s) as [ls Hls].
  destruct (scanNodes _ _ s) as [[[addr name] found] s1|msg s1]; simpl in Hls; subst s1;
    cycle 1.
  { simpl. split_and!; try done. by intros msg' s' [= _ <-]. }
  destruct (negb found && String.eqb (hostGroup ev) ansibleWorkerGroupName).
  { simpl. split_and!; try done. by intros err s' [= <- <-]. }
  destruct (buildHosts_frame (hostGroup ev) addr name (rangeOrder (_enodes ev)) []
              (addLogs ls s)) as (hp' & Hfin & _).
  destruct (buildHosts _ _ _ _ _ _) as [hosts s2|msg s2]; simpl in Hfin; subst s2; simpl.
  - split_and!; try done. intros e' Hne. by rewrite lookup_insert_ne.
  - split_and!; try done. by intros msg' s' [= _ <-].
Qed.

(** X2: whatever its outcome, [prepareInventory] writes no host record but
    those the event's nodes point to; it creates and removes none, and every
    record keeps its tag. *)
Theorem prepareInventory_keeps_other_records e (s : Store) ev :
  (∀ m, rangeOrder m ≡ₚ map_to_list m) ->
  events s !! e = Some ev ->
  let s' := finalState (prepareInventory e s) in
  (∀ p, (∀ x nd, _enodes ev !! x = Some nd -> Cfg nd ≠ AnsibleHostRef p) ->
        hostHeap s' !! p = hostHeap s !! p)
  ∧ (∀ p h h', hostHeap s !! p = Some h -> hostHeap s' !! p = Some h' -> tag h' = tag h)
  ∧ (∀ p, is_Some (hostHeap s' !! p) ↔ is_Some (hostHeap s !! p)).
Proof.
  intros Hperm He. simpl.
  rewrite (prepareInventory_outcome _ _ _ He).
  destruct (scanNodes_frame (_enodes ev) (rangeOrder (nodes s)) s) as [ls Hls].
  destruct (scanNodes _ _ s) as [[[addr name] found] s1|msg s1]; simpl in Hls; subst s1;
    cycle 1.
  { simpl. split; [done|]. split; [|done]. intros p h h' Ha Hb. congruence. }
  destruct (negb found && String.eqb (hostGroup ev) ansibleWorkerGroupName).
  { simpl. split; [done|]. split; [|done]. intros p h h' Ha Hb. congruence. }
  destruct (buildHosts_frame (hostGroup ev) addr name (rangeOrder (_enodes ev)) []
              (addLogs ls s)) as (hp' & Hfin & Hout & Htag & Hdom).
  assert (∀ p, (∀ x nd, _enodes ev !! x = Some nd -> Cfg nd ≠ AnsibleHostRef p) ->
               p ∉ omap hostPtr (rangeOrder (_enodes ev))) as Hnot.
  { intros p Hp Hin. apply list_elem_of_omap in Hin as ([x nd] & Hc & Hptr).
    apply (rangeOrder_elem _ _ _ Hperm) in Hc.
    apply (Hp x nd Hc). unfold hostPtr in Hptr. simpl in Hptr.
    destruct (Cfg nd); congruence. }
  destruct (buildHosts _ _ _ _ _ _) as [hosts s2|msg s2]; simpl in Hfin; subst s2; simpl.
  - split; [intros p Hp; by apply Hout, Hnot|]. split; [exact Htag|exact Hdom].
  - split; [intros p Hp; by apply Hout, Hnot|]. split; [exact Htag|exact Hdom].
Qed.

(** X3: with live [*AnsibleHost] records on the event's nodes and no
    topology error, [prepareInventory] replaces the event's [_hosts] by the
    pointers of the event's nodes, one per node in the order [range] yields
    them, whatever [_hosts] held before; the other fields of the event are
    kept. *)
Theorem prepareInventory_hosts_in_range_order e (s : Store) ev :
  (∀ m, rangeOrder m ≡ₚ map_to_list m) ->
  events s !! e = Some ev ->
  enodesCarryAnsibleHosts s ev ->
  masterReadable s (_enodes ev) ->
  is_Some (existingMaster s (_enodes ev)) ∨ hostGroup ev ≠ ansibleWorkerGroupName ->
  ∃ s' hosts,
    prepareInventory e s = Ret None s'
    ∧ events s' !! e = Some (set_hosts hosts ev)
    ∧ Forall2 (fun c p => Cfg c.2 = AnsibleHostRef p) (rangeOrder (_enodes ev)) hosts.
Proof.
  intros Hperm He Hlive Hread Hgo.
  rewrite (prepareInventory_after_scan _ _ _ _ _ _ _ He (scanNodes_outcome _ _ Hread)).
  assert (negb (bool_decide (is_Some (existingMaster s (_enodes ev))))
          && String.eqb (hostGroup ev) ansibleWorkerGroupName = false) as ->.
  { destruct Hgo as [Hsome|Hgrp].
    - by rewrite bool_decide_eq_true_2.
    - apply andb_false_iff. right. by apply String.eqb_neq. }
  assert (Forall (fun c => carriesAnsibleHost (hostHeap s) c.2)
            (rangeOrder (_enodes ev))) as Hall.
  { apply Forall_forall. intros [x nd] Hc.
    apply (rangeOrder_elem _ _ _ Hperm) in Hc. simpl. by apply (Hlive x). }
  destruct (buildHosts_ok (hostGroup ev) (masterVars s (_enodes ev)).1
              (masterVars s (_enodes ev)).2 (fun _ => True)
              (rangeOrder (_enodes ev)) (fun _ => I) []
              (addLogs (scanLog s (_enodes ev) (scanned s (_enodes ev))) s) Hall)
    as (hp' & Hrun & _).
  rewrite Hrun. eexists _, (omap hostPtr (rangeOrder (_enodes ev))).
  split; [reflexivity|]. split; [simpl; apply lookup_insert_eq|].
  clear Hrun. induction Hall as [|c l (p & Hp & _) Hall IH]; [constructor|].
  simpl. unfold hostPtr at 1. rewrite Hp. simpl. by constructor.
Qed.

(** X4: an event that resolved no node.  If the scan raises no topology
    error, [prepareInventory] returns nil, sets [_hosts] to the empty slice
    and writes no host record. *)
Theorem prepareInventory_no_nodes e (s : Store) ev :
  (∀ m, rangeOrder m ≡ₚ map_to_list m) ->
  events s !! e = Some ev ->
  _enodes ev = ∅ ->
  masterReadable s ∅ ->
  is_Some (existingMaster s ∅) ∨ hostGroup ev ≠ ansibleWorkerGroupName ->
  prepareInventory e s
  = Ret None (set_events (<[e := set_hosts [] ev]> (events s))
                (addLogs (scanLog s ∅ (scanned s ∅)) s)).
Proof.
  intros Hperm He Hempty Hread Hgo.
  assert (rangeOrder (_enodes ev) = []) as Hnil.
  { apply Permutation_nil. rewrite (Hperm (_enodes ev)), Hempty.
    by rewrite map_to_list_empty. }
  rewrite <- Hempty in Hread, Hgo |- *.
  rewrite (prepareInventory_after_scan _ _ _ _ _ _ _ He (scanNodes_outcome _ _ Hread)).
  assert (negb (bool_decide (is_Some (existingMaster s (_enodes ev))))
          && String.eqb (hostGroup ev) ansibleWorkerGroupName = false) as ->.
  { destruct Hgo as [Hsome|Hgrp].
    - by rewrite bool_decide_eq_true_2.
    - apply andb_false_iff. right. by apply String.eqb_neq. }
  rewrite Hnil. reflexivity.
Qed.
(** *** The scan and the order of [range] *)

Lemma scanNodes_list_outcome enodes l (s : Store) :
  mastersReadable s enodes l ->
  match list_find (fun c => Is_true (isExistingMaster s enodes c)) l with
  | Some (i, c) =>
      ∃ tg, readTag (hostHeap s) (Cfg c.2) = Some tg
            ∧ c ∈ l ∧ isExistingMaster s enodes c = true
            ∧ scanNodes enodes l s
              = Ret (mgmtAddress (Mon c.2), tg, true)
                    (addLogs (scanLog s enodes (take i l)) s)
  | None =>
      Forall (fun c => isExistingMaster s enodes c = false) l
      ∧ scanNodes enodes l s = Ret ("", "", false) (addLogs (scanLog s enodes l) s)
  end.
Proof.
  intros Hread.
  destruct (list_find _ l) as [[i c]|] eqn:Hfind.
  - apply list_find_Some in Hfind as (Hi & Hp & Hbefore).
    apply Is_true_eq_true in Hp.
    assert (c ∈ l) as Hin by (apply list_elem_of_lookup; eauto).
    destruct (Hread c Hin Hp) as [tg Htag].
    exists tg. split; [done|]. split; [done|]. split; [done|].
    rewrite <- (take_drop_middle _ _ _ Hi) at 1.
    apply scanNodes_first; [|done|done].
    apply Forall_forall. intros c' Hc'.
    apply list_elem_of_lookup in Hc' as [j Hj].
    pose proof (lookup_lt_Some _ _ _ Hj) as Hlt. rewrite length_take in Hlt.
    rewrite lookup_take_lt in Hj by lia.
    specialize (Hbefore j c' Hj ltac:(lia)).
    by destruct (isExistingMaster s enodes c').
  - apply list_find_None in Hfind.
    assert (Forall (fun c => isExistingMaster s enodes c = false) l) as Hall.
    { eapply Forall_impl; [exact Hfind|]. simpl. intros c Hc.
      by destruct (isExistingMaster s enodes c). }
    split; [done|]. by apply scanNodes_none.
Qed.

(** X5: whether the scan finds a master does not depend on the order in
    which [range] yields the nodes: over two orders of the same candidates
    the scan returns the same [masterCommissioned], which is true exactly
    when some candidate is an existing master. *)
Theorem scan_found_whatever_the_order enodes l1 l2 (s : Store) :
  l1 ≡ₚ l2 ->
  mastersReadable s enodes l1 ->
  ∃ addr1 name1 s1 addr2 name2 s2 found,
    scanNodes enodes l1 s = Ret (addr1, name1, found) s1
    ∧ scanNodes enodes l2 s = Ret (addr2, name2, found) s2
    ∧ (found = true ↔ ∃ c, c ∈ l1 ∧ isExistingMaster s enodes c = true).
Proof.
  intros Hperm Hread1.
  assert (mastersReadable s enodes l2) as Hread2.
  { intros c Hc. apply Hread1. by rewrite Hperm. }
  pose proof (scanNodes_list_outcome enodes l1 s Hread1) as H1.
  pose proof (scanNodes_list_outcome enodes l2 s Hread2) as H2.
  destruct (list_find _ l1) as [[i1 c1]|];
    destruct (list_find _ l2) as [[i2 c2]|].
  - destruct H1 as (tg1 & _ & Hin1 & Hm1 & Hrun1).
    destruct H2 as (tg2 & _ & _ & _ & Hrun2).
    eexists _, _, _, _, _, _, true. split; [exact Hrun1|]. split; [exact Hrun2|].
    split; [|done]. intros _. by exists c1.
  - destruct H1 as (tg1 & _ & Hin1 & Hm1 & _). destruct H2 as [Hall2 _].
    rewrite Forall_forall in Hall2. rewrite Hperm in Hin1.
    specialize (Hall2 c1 Hin1). congruence.
  - destruct H2 as (tg2 & _ & Hin2 & Hm2 & _). destruct H1 as [Hall1 _].
    rewrite Forall_forall in Hall1. rewrite <- Hperm in Hin2.
    specialize (Hall1 c2 Hin2). congruence.
  - destruct H1 as [Hall1 Hrun1]. destruct H2 as [_ Hrun2].
    eexists _, _, _, _, _, _, false. split; [exact Hrun1|]. split; [exact Hrun2|].
    split; [done|]. intros (c & Hc & Hm). rewrite Forall_forall in Hall1.
    specialize (Hall1 c Hc). congruence.
Qed.

(** X6: when at most one candidate is an existing master, the master address
    and master name that the scan returns do not depend on the order of
    [range] either. *)
Theorem scan_unique_master_whatever_the_order enodes l1 l2 (s : Store) :
  l1 ≡ₚ l2 ->
  mastersReadable s enodes l1 ->
  (∀ c c', c ∈ l1 -> c' ∈ l1 ->
           isExistingMaster s enodes c = true ->
           isExistingMaster s enodes c' = true -> c = c') ->
  ∃ r s1 s2,
    scanNodes enodes l1 s = Ret r s1 ∧ scanNodes enodes l2 s = Ret r s2.
Proof.
  intros Hperm Hread1 Huniq.
  assert (mastersReadable s enodes l2) as Hread2.
  { intros c Hc. apply Hread1. by rewrite Hperm. }
  pose proof (scanNodes_list_outcome enodes l1 s Hread1) as H1.
  pose proof (scanNodes_list_outcome enodes l2 s Hread2) as H2.
  destruct (list_find _ l1) as [[i1 c1]|];
    destruct (list_find _ l2) as [[i2 c2]|].
  - destruct H1 as (tg1 & Htag1 & Hin1 & Hm1 & Hrun1).
    destruct H2 as (tg2 & Htag2 & Hin2 & Hm2 & Hrun2).
    rewrite <- Hperm in Hin2.
    assert (c1 = c2) as <- by by apply Huniq.
    assert (tg1 = tg2) as <- by congruence.
    eexists _, _, _. split; [exact Hrun1|exact Hrun2].
  - destruct H1 as (tg1 & _ & Hin1 & Hm1 & _). destruct H2 as [Hall2 _].
    rewrite Forall_forall in Hall2. rewrite Hperm in Hin1.
    specialize (Hall2 c1 Hin1). congruence.
  - destruct H2 as (tg2 & _ & Hin2 & Hm2 & _). destruct H1 as [Hall1 _].
    rewrite Forall_forall in Hall1. rewrite <- Hperm in Hin2.
    specialize (Hall1 c2 Hin2). congruence.
  - destruct H1 as [_ Hrun1]. destruct H2 as [_ Hrun2].
    eexists _, _, _. split; [exact Hrun1|exact Hrun2].
Qed.
(** *** [process]: the paths that end early *)

(** X7: a request for a host group that is not valid.  [process] returns the
    invalid-group error that quotes the group and leaves the manager exactly
    as it was: the gate is free again, no node was resolved, no status
    changed and no goroutine was started. *)
Theorem process_invalid_group e (m : Manager) ev :
  events (store m) !! e = Some ev ->
  activeJob m = None ->
  IsValidHostGroup (hostGroup ev) = false ->
  process e m
  = Ret (Some (Errorf "invalid or empty host-group specified: %q" [hostGroup ev])) m.
Proof.
  intros He Hfree Hgrp. rewrite (process_free_gate _ _ _ He Hfree).
  unfold eventValidate. rewrite bind_eq. unfold getEvent. rewrite He, Hgrp. simpl.
  destruct m as [s j gs]. simpl in *. by subst j.
Qed.

(** X8: the host group is valid but the resolution of the node names fails.
    [process] returns the error of the resolution and resets the gate; the
    one thing written is the event's [_enodes], which holds whatever the
    resolution returned beside its error. *)
Theorem process_resolution_failure e (m : Manager) ev err :
  events (store m) !! e = Some ev ->
  activeJob m = None ->
  IsValidHostGroup (hostGroup ev) = true ->
  let s := store m in
  let v := commonEventValidate (nodes s) (inventory s) (hostHeap s) (nodeNames ev) in
  v.2 = Some err ->
  process e m
  = Ret (Some err)
        (mkManager (set_events (<[e := set_enodes v.1 ev]> (events s)) s)
           None (goroutines m)).
Proof.
  intros He Hfree Hgrp s v Hv. rewrite (process_free_gate _ _ _ He Hfree).
  rewrite (eventValidate_valid_group _ _ _ He Hgrp). fold s. fold v. by rewrite Hv.
Qed.


(** X10: a failed provisioning transition does not undo the preparation of
    the inventory.  With the gate free, validation passed and the inventory
    prepared, if the atomic transition returns an error then [process]
    returns it with the gate reset, and, provided the transition itself wrote
    no host record, the record of every resolved node still has the
    requested group and the master variables. *)
Theorem process_failed_transition_keeps_preparation e (m : Manager) ev :
  (∀ m, rangeOrder m ≡ₚ map_to_list m) ->
  ansibleEtcdMasterAddrHostVar ≠ ansibleEtcdMasterNameHostVar ->
  events (store m) !! e = Some ev ->
  activeJob m = None ->
  IsValidHostGroup (hostGroup ev) = true ->
  let s := store m in
  let v := commonEventValidate (nodes s) (inventory s) (hostHeap s) (nodeNames ev) in
  v.2 = None ->
  (∀ y nd, v.1 !! y = Some nd -> carriesAnsibleHost (hostHeap s) nd) ->
  masterReadable s v.1 ->
  is_Some (existingMaster s v.1) ∨ hostGroup ev ≠ ansibleWorkerGroupName ->
  ∃ s1 s2,
    eventValidate e s = Ret None s1
    ∧ prepareInventory e s1 = Ret None s2
    ∧ ∀ err s3,
        setAssetsStatusAtomic (nodeNames ev) SetAssetProvisioning SetAssetUnallocated s2
        = Ret (Some err) s3 ->
        process e m = Ret (Some err) (mkManager s3 None (goroutines m))
        ∧ (hostHeap s3 = hostHeap s2 ->
           ∀ y nd, v.1 !! y = Some nd ->
             ∃ p h, Cfg nd = AnsibleHostRef p ∧ hostHeap s3 !! p = Some h
                    ∧ configured (hostGroup ev) (masterVars s v.1).1
                        (masterVars s v.1).2 h).
Proof.
  intros Hperm Hne He Hfree Hgrp s v Hv Hlive Hread Hgo.
  pose proof (eventValidate_valid_group e s ev He Hgrp) as Hval.
  fold v in Hval. rewrite Hv in Hval.
  set (ev1 := set_enodes v.1 ev) in *.
  set (s1 := set_events (<[e := ev1]> (events s)) s) in *.
  assert (events s1 !! e = Some ev1) as He1 by (simpl; apply lookup_insert_eq).
  assert (masterReadable s1 (_enodes ev1)) as Hread1 by exact Hread.
  destruct (prepareInventory_configures e s1 ev1 _ _ _ _
              (configured (hostGroup ev) (masterVars s v.1).1 (masterVars s v.1).2)
              Hperm He1 Hlive (scanNodes_outcome _ _ Hread1))
    as (hp' & hosts & Hrun & _ & Hvis & _).
  { destruct Hgo as [Hsome|Hgrp'].
    - by rewrite bool_decide_eq_true_2.
    - apply andb_false_iff. right. by apply String.eqb_neq. }
  { intros h. by apply configureHost_configured. }
  match type of Hrun with _ = Ret None ?t => remember t as s2 eqn:Hs2 end.
  assert (events s2 !! e = Some (set_hosts hosts ev1)) as He2.
  { subst s2. simpl. apply lookup_insert_eq. }
  assert (hostHeap s2 = hp') as Hheap by (by subst s2).
  exists s1, s2. split; [exact Hval|]. split; [exact Hrun|].
  intros err s3 Hatomic. split.
  - rewrite (process_free_gate _ _ _ He Hfree). fold s. rewrite Hval.
    unfold afterValidate. rewrite Hrun. unfold afterPrepare. rewrite He2.
    change (nodeNames (set_hosts hosts ev1)) with (nodeNames ev).
    by rewrite Hatomic.
  - intros Hsame y nd Hy. rewrite Hsame, Hheap.
    destruct (Hvis y nd Hy) as (p & h & ? & _ & ? & ?). by exists p, h.
Qed.

(** *** [String] *)












(** *** Checking the side conditions on given candidates *)

Lemma mastersReadable_check (s : Store) enodes l :
  forallb (readableIfMaster s enodes) l = true -> mastersReadable s enodes l.
Proof.
  intros Hall c Hc Hm. rewrite forallb_forall in Hall.
  specialize (Hall c). rewrite <- list_elem_of_In in Hall. specialize (Hall Hc).
  unfold readableIfMaster in Hall. rewrite Hm in Hall. simpl in Hall.
  by apply bool_decide_eq_true_1 in Hall.
Qed.

Lemma masterReadable_check (s : Store) enodes :
  forallb (readableIfMaster s enodes) (rangeOrder (nodes s)) = true ->
  masterReadable s enodes.
Proof.
  intros Hall i name nd Hm. unfold existingMaster in Hm.
  apply list_find_Some in Hm as (Hi & Hp & _).
  apply (mastersReadable_check _ _ _ Hall (name, nd)).
  - apply list_elem_of_lookup. eauto.
  - by apply Is_true_eq_true.
Qed.

Lemma unique_master_check (s : Store) enodes l c0 :
  filter (fun c => Is_true (isExistingMaster s enodes c)) l = [c0] ->
  ∀ c c', c ∈ l -> c' ∈ l ->
          isExistingMaster s enodes c = true ->
          isExistingMaster s enodes c' = true -> c = c'.
Proof.
  intros Hone c c' Hc Hc' Hm Hm'.
  assert (∀ d, d ∈ l -> isExistingMaster s enodes d = true -> d = c0) as Hall.
  { intros d Hd Hdm.
    assert (d ∈ filter (fun c => Is_true (isExistingMaster s enodes c)) l) as Hin.
    { apply list_elem_of_filter. split; [by apply Is_true_eq_left|done]. }
    rewrite Hone in Hin. by apply list_elem_of_singleton in Hin. }
  by rewrite (Hall c Hc Hm), (Hall c' Hc' Hm').
Qed.

Lemma pointsElsewhere_check (p : loc) (enodes : gmap string node) :
  forallb (pointsElsewhere p) (map_to_list enodes) = true ->
  ∀ x nd, enodes !! x = Some nd -> Cfg nd ≠ AnsibleHostRef p.
Proof.
  intros Hall x nd Hx Hcfg. apply elem_of_map_to_list in Hx.
  rewrite forallb_forall in Hall.
  specialize (Hall (x, nd)). rewrite <- list_elem_of_In in Hall.
  specialize (Hall Hx). unfold pointsElsewhere in Hall. simpl in Hall.
  by rewrite bool_decide_eq_true_2 in Hall.
Qed.
End Further.

(** ** The properties on the concrete cluster *)

Lemma process_conflict_witness :
  process 7 (Scenario.busy (Scenario.cluster "worker" Scenario.Commissioned []))
  = Ret (Some (errActiveJob "job"))
        (Scenario.busy (Scenario.cluster "worker" Scenario.Commissioned [])).
Proof.
  exact (process_conflict (ME := Scenario.env) 7
           (Scenario.busy (Scenario.cluster "worker" Scenario.Commissioned []))
           (newCommissionEvent ["n1"; "n2"] "" "worker") Scenario.otherJob
           eq_refl eq_refl).
Defined.

Lemma runner_returns_configure_error_witness :
  ∃ s',
    configureOrCleanupOnErrorRunner (CS := Scenario.engine) 7 tt tt
      (Scenario.prepared [Some Scenario.engineFailure; Some Scenario.cleanupFailure])
    = Ret (Some Scenario.engineFailure) s'
    ∧ engineCalls s' = [CallConfigure [1; 2] ""; CallCleanup [1; 2] ""]
    ∧ logs s'
      = [mkLog ErrorLevel "configuration failed, starting cleanup. Error: %s"
           [ArgErr (Some Scenario.engineFailure)];
         mkLog ErrorLevel "cleanup failed. Error: %s"
           [ArgErr (Some Scenario.cleanupFailure)]].
Proof.
  destruct (runner_returns_configure_error (CS := Scenario.engine) 7 tt tt
              (Scenario.prepared
                 [Some Scenario.engineFailure; Some Scenario.cleanupFailure])
              (set_hosts [1; 2] (Scenario.resolved Scenario.workerGroup)) eq_refl)
    as (s' & Hrun & Hcalls & Hlogs & _).
  exists s'. split; [exact Hrun|]. split; [exact Hcalls|exact Hlogs].
Defined.

Lemma commissionDone_best_effort_witness :
  ∃ s',
    commissionDone 7 Errored (Some Scenario.engineFailure) Scenario.halfProvisioned
    = Ret tt s'
    ∧ inventory s'
      = ({[ "m1" := Scenario.Commissioned; "n1" := Scenario.Unallocated;
            "n2" := Scenario.Unallocated ]} : gmap string Scenario.AssetStatus)
    ∧ logs s'
      = [mkLog ErrorLevel "configuration job failed. Error: %v"
           [ArgErr (Some Scenario.engineFailure)];
         updateFailed "n1"
           (Some (Errorf "transition is not allowed for asset %s" ["n1"]))].
Proof.
  destruct (commissionDone_best_effort (ME := Scenario.env) 7 Scenario.halfProvisioned
              (set_hosts [1; 2] (Scenario.resolved Scenario.workerGroup))
              Errored (Some Scenario.engineFailure) eq_refl)
    as [(s' & Hrun & Hinv & Hlogs & _) _].
  exists s'. split; [exact Hrun|]. split.
  - rewrite Hinv. vm_compute. reflexivity.
  - rewrite Hlogs. vm_compute. reflexivity.
Defined.

Lemma prepareInventory_takes_first_master_witness :
  ∃ s' h1 h2,
    prepareInventory 7 Scenario.withGhost = Ret None s'
    ∧ logs s'
      = [checkFailed "g1" (Some (Errorf "the asset %s doesn't exist" ["g1"]))]
    ∧ hostHeap s' !! 1 = Some h1
    ∧ vars h1 !! "masterAddr" = Some "10.0.0.5"
    ∧ vars h1 !! "masterName" = Some "master-1"
    ∧ hostHeap s' !! 2 = Some h2
    ∧ vars h2 !! "masterAddr" = Some "10.0.0.5"
    ∧ vars h2 !! "masterName" = Some "master-1".
Proof.
  destruct (prepareInventory_takes_first_master (ME := Scenario.env) 7
              Scenario.withGhost (Scenario.resolved Scenario.workerGroup)
              1 "m1" Scenario.m1 "master-1")
    as [_ (s' & ev' & Hrun & Hlogs & _ & Hvis)].
  - intros m. reflexivity.
  - discriminate.
  - reflexivity.
  - apply enodesCarryAnsibleHosts_check. vm_compute. reflexivity.
  - vm_compute. reflexivity.
  - reflexivity.
  - destruct (Hvis "n1" Scenario.n1 eq_refl) as (p1 & h1 & Hp1 & _ & Hh1 & Ha1 & Hn1).
    destruct (Hvis "n2" Scenario.n2 eq_refl) as (p2 & h2 & Hp2 & _ & Hh2 & Ha2 & Hn2).
    simpl in Hp1, Hp2. injection Hp1 as <-. injection Hp2 as <-.
    exists s', h1, h2. split; [exact Hrun|]. split.
    { rewrite Hlogs. vm_compute. reflexivity. }
    split; [exact Hh1|]. split; [exact Ha1|]. split; [exact Hn1|].
    split; [exact Hh2|]. split; [exact Ha2|exact Hn2].
Defined.

Lemma prepareInventory_host_configs_witness :
  ∃ s' ev' h1 h2,
    prepareInventory 7 (Scenario.validated "worker" Scenario.Commissioned []) = Ret None s'
    ∧ events s' !! 7 = Some ev'
    ∧ length (_hosts ev') = 2
    ∧ hostHeap s' !! 1 = Some h1
    ∧ group h1 = "worker"
    ∧ vars h1 !! "masterAddr" = Some "10.0.0.5"
    ∧ vars h1 !! "masterName" = Some "master-1"
    ∧ hostHeap s' !! 2 = Some h2
    ∧ group h2 = "worker"
    ∧ vars h2 !! "masterAddr" = Some "10.0.0.5"
    ∧ vars h2 !! "masterName" = Some "master-1".
Proof.
  destruct (prepareInventory_host_configs (ME := Scenario.env) 7
              (Scenario.validated "worker" Scenario.Commissioned [])
              (Scenario.resolved "worker"))
    as (s' & ev' & Hrun & Hev & Hlen & Hvis).
  - intros m. reflexivity.
  - discriminate.
  - reflexivity.
  - apply enodesCarryAnsibleHosts_check. vm_compute. reflexivity.
  - intros i name nd Hm. vm_compute in Hm. injection Hm as <- <- <-.
    vm_compute. eauto.
  - left. vm_compute. eauto.
  - destruct (Hvis "n1" Scenario.n1 eq_refl)
      as (p1 & h1 & Hp1 & _ & Hh1 & Hg1 & Ha1 & Hn1).
    destruct (Hvis "n2" Scenario.n2 eq_refl)
      as (p2 & h2 & Hp2 & _ & Hh2 & Hg2 & Ha2 & Hn2).
    simpl in Hp1, Hp2. injection Hp1 as <-. injection Hp2 as <-.
    exists s', ev', h1, h2. split; [exact Hrun|]. split; [exact Hev|].
    split; [exact Hlen|].
    split; [exact Hh1|]. split; [exact Hg1|]. split; [exact Ha1|]. split; [exact Hn1|].
    split; [exact Hh2|]. split; [exact Hg2|]. split; [exact Ha2|exact Hn2].
Defined.

Lemma prepareInventory_panics_on_other_record_witness :
  (∃ s', prepareInventory 7 Scenario.mixed = Panic badConversion s')
  ∧ prepareInventory 7 Scenario.mixedNoMaster
    = Ret (Some topologyError) Scenario.mixedNoMaster.
Proof.
  split.
  - destruct (prepareInventory_panics_on_other_record (ME := Scenario.env) 7
                Scenario.mixed
                (set_enodes {[ "n1" := Scenario.n1; "f1" := Scenario.f1 ]}
                   (newCommissionEvent ["n1"; "f1"] "" Scenario.workerGroup)))
      as [_ Hpast].
    + intros m. reflexivity.
    + reflexivity.
    + intros i name nd Hm. vm_compute in Hm. injection Hm as <- <- <-.
      vm_compute. eauto.
    + apply liveIfAnsible_check. vm_compute. reflexivity.
    + destruct Hpast as [Hpanic _]; [left; vm_compute; eauto|].
      exact (Hpanic "f1" Scenario.f1 "other-1" eq_refl eq_refl).
  - destruct (prepareInventory_panics_on_other_record (ME := Scenario.env) 7
                Scenario.mixedNoMaster
                (set_enodes {[ "n1" := Scenario.n1; "f1" := Scenario.f1 ]}
                   (newCommissionEvent ["n1"; "f1"] "" Scenario.workerGroup)))
      as [Hearly _].
    + intros m. reflexivity.
    + reflexivity.
    + intros i name nd Hm. vm_compute in Hm. discriminate Hm.
    + apply liveIfAnsible_check. vm_compute. reflexivity.
    + rewrite Hearly; [vm_compute; reflexivity| vm_compute; reflexivity | reflexivity].
Defined.

(** C9 without the condition on the topology check fails on this cluster:
    the worker group is requested, no master is commissioned, the resolved
    node [f1] carries a record that is not an [*AnsibleHost], and
    [prepareInventory] returns the topology error; there is no panic. *)
Lemma prepareInventory_returns_before_the_assertion :
  events Scenario.mixedNoMaster !! 7
  = Some (set_enodes {[ "n1" := Scenario.n1; "f1" := Scenario.f1 ]}
            (newCommissionEvent ["n1"; "f1"] "" "worker"))
  ∧ ({[ "n1" := Scenario.n1; "f1" := Scenario.f1 ]} : gmap string node) !! "f1"
    = Some Scenario.f1
  ∧ Cfg Scenario.f1 = ForeignHost "other-1"
  ∧ prepareInventory 7 Scenario.mixedNoMaster
    = Ret (Some topologyError) Scenario.mixedNoMaster
  ∧ returned (prepareInventory 7 Scenario.mixedNoMaster) = true.
Proof. vm_compute. repeat split; reflexivity. Qed.

Lemma prepareInventory_first_master_gets_empty_vars_witness :
  ∃ s' h1 h2,
    prepareInventory 7 (Scenario.validated "master" Scenario.Unallocated []) = Ret None s'
    ∧ hostHeap s' !! 1 = Some h1
    ∧ vars h1 !! "masterAddr" = Some ""
    ∧ vars h1 !! "masterName" = Some ""
    ∧ hostHeap s' !! 2 = Some h2
    ∧ vars h2 !! "masterAddr" = Some ""
    ∧ vars h2 !! "masterName" = Some "".
Proof.
  destruct (prepareInventory_first_master_gets_empty_vars (ME := Scenario.env) 7
              (Scenario.validated "master" Scenario.Unallocated [])
              (Scenario.resolved "master"))
    as (s' & ev' & Hrun & _ & Hvis).
  - intros m. reflexivity.
  - discriminate.
  - discriminate.
  - reflexivity.
  - apply enodesCarryAnsibleHosts_check. vm_compute. reflexivity.
  - vm_compute. reflexivity.
  - reflexivity.
  - destruct (Hvis "n1" Scenario.n1 eq_refl) as (p1 & h1 & Hp1 & _ & Hh1 & Ha1 & Hn1).
    destruct (Hvis "n2" Scenario.n2 eq_refl) as (p2 & h2 & Hp2 & _ & Hh2 & Ha2 & Hn2).
    simpl in Hp1, Hp2. injection Hp1 as <-. injection Hp2 as <-.
    exists s', h1, h2. split; [exact Hrun|].
    split; [exact Hh1|]. split; [exact Ha1|]. split; [exact Hn1|].
    split; [exact Hh2|]. split; [exact Ha2|exact Hn2].
Defined.

Lemma process_without_master_witness :
  ∃ m',
    process 7 (Scenario.manager (Scenario.cluster "worker" Scenario.Unallocated []))
    = Ret (Some topologyError) m'
    ∧ inventory (store m')
      = ({[ "m1" := Scenario.Unallocated; "n1" := Scenario.Unallocated;
            "n2" := Scenario.Unallocated ]} : gmap string Scenario.AssetStatus)
    ∧ hostHeap (store m') = Scenario.hosts0
    ∧ activeJob m' = None
    ∧ goroutines m' = [].
Proof.
  destruct (process_without_master (ME := Scenario.env) 7
              (Scenario.manager (Scenario.cluster "worker" Scenario.Unallocated []))
              (newCommissionEvent ["n1"; "n2"] "" "worker"))
    as [Hworker _].
  - intros m. reflexivity.
  - discriminate.
  - reflexivity.
  - reflexivity.
  - reflexivity.
  - vm_compute. reflexivity.
  - apply no_master_check. vm_compute. reflexivity.
  - destruct (Hworker eq_refl) as (m' & Hrun & Hinv & Hheap & _ & Hgate & Hgo).
    exists m'. split; [exact Hrun|]. split; [exact Hinv|]. split; [exact Hheap|].
    split; [exact Hgate|exact Hgo].
Defined.

Lemma process_error_resets_gate_witness :
  process 7 (Scenario.manager (Scenario.cluster "worker" Scenario.Unallocated []))
  = Ret (Some topologyError)
        (Scenario.manager (Scenario.validated "worker" Scenario.Unallocated []))
  ∧ processWith (panic "resetActiveJob is called") 7
      (Scenario.manager (Scenario.cluster "worker" Scenario.Unallocated []))
    = Panic "resetActiveJob is called"
        (mkManager (Scenario.validated "worker" Scenario.Unallocated [])
           (Some (commissionJob 7)) []).
Proof.
  destruct (process_error_resets_gate (ME := Scenario.env) 7
              (Scenario.manager (Scenario.cluster "worker" Scenario.Unallocated []))
              (newCommissionEvent ["n1"; "n2"] "" "worker") eq_refl eq_refl)
    as (_ & Hfails & _).
  destruct (Hfails topologyError (Scenario.validated "worker" Scenario.Unallocated []))
    as [Hwith Hrun].
  - right. left. exists (Scenario.validated "worker" Scenario.Unallocated []).
    split; vm_compute; reflexivity.
  - split; [exact Hrun|exact (Hwith (panic "resetActiveJob is called"))].
Defined.

Lemma process_launches_after_provisioning_witness :
  ∃ s2 ev2 s3,
    setAssetsStatusAtomic (nodeNames ev2) SetAssetProvisioning SetAssetUnallocated s2
    = Ret None s3
    ∧ process 7 (Scenario.manager (Scenario.cluster "worker" Scenario.Commissioned []))
      = Ret None (mkManager s3 (Some (commissionJob 7)) [GoRunActiveJob]).
Proof.
  destruct (process_launches_after_provisioning (ME := Scenario.env) 7
              (Scenario.manager (Scenario.cluster "worker" Scenario.Commissioned []))
              (newCommissionEvent ["n1"; "n2"] "" "worker") eq_refl eq_refl)
    as [_ Hlaunched].
  destruct Hlaunched as (s3 & (s1 & s2 & ev2 & _ & _ & _ & Hatomic) & Hrun).
  - intros Hsame. vm_compute in Hsame. discriminate Hsame.
  - exists s2, ev2, s3. split; [exact Hatomic|exact Hrun].
Defined.

(** ** Runs of the scenarios *)

(** Workers [n1] and [n2] join the commissioned master [m1]: the request is
    accepted, both nodes are provisioning, the goroutine is started and the
    engine has not been called. *)
Example commission_workers_accepted :
  let o := process 7 (Scenario.manager
                        (Scenario.cluster "worker" Scenario.Commissioned [])) in
  returned o = true
  ∧ inventory (store (finalState o))
    = ({[ "m1" := Scenario.Commissioned; "n1" := Scenario.Provisioning;
          "n2" := Scenario.Provisioning ]} : gmap string Scenario.AssetStatus)
  ∧ hostHeap (store (finalState o)) !! 1
    = Some (mkAnsibleHost "node-1" "worker"
              {[ "masterAddr" := "10.0.0.5"; "masterName" := "master-1" ]})
  ∧ goroutines (finalState o) = [GoRunActiveJob]
  ∧ engineCalls (store (finalState o)) = [].
Proof. vm_compute. repeat split; reflexivity. Qed.

(** The same request with no commissioned master is refused; only the
    event's resolved nodes were written. *)
Example commission_workers_refused :
  process 7 (Scenario.manager (Scenario.cluster "worker" Scenario.Unallocated []))
  = Ret (Some topologyError)
        (Scenario.manager (Scenario.validated "worker" Scenario.Unallocated [])).
Proof. vm_compute. reflexivity. Qed.

(** The engine succeeds: the runner calls it once and returns nil, and the
    callback then marks both nodes commissioned. *)
Example runner_succeeds :
  let o := configureOrCleanupOnErrorRunner (CS := Scenario.engine) 7 tt tt
             (Scenario.prepared [None]) in
  o = Ret None (set_engineCalls [CallConfigure [1; 2] ""] (Scenario.prepared [])).
Proof. vm_compute. reflexivity. Qed.

Example callback_commissions :
  let s := set_inventory
             ({[ "m1" := Scenario.Commissioned; "n1" := Scenario.Provisioning;
                 "n2" := Scenario.Provisioning ]} : gmap string Scenario.AssetStatus)
             (Scenario.prepared []) in
  let o := commissionDone 7 Completed None s in
  returned o = true
  ∧ inventory (finalState o)
    = ({[ "m1" := Scenario.Commissioned; "n1" := Scenario.Commissioned;
          "n2" := Scenario.Commissioned ]} : gmap string Scenario.AssetStatus)
  ∧ logs (finalState o) = [].
Proof. vm_compute. repeat split; reflexivity. Qed.

(** ** The further properties on the concrete cluster *)

Lemma prepareInventory_keeps_other_records_witness :
  hostHeap (finalState (prepareInventory 7
                          (Scenario.validated "worker" Scenario.Commissioned [])))
    !! 0
  = Some (mkAnsibleHost "master-1" "master" ∅).
Proof.
  destruct (prepareInventory_keeps_other_records (ME := Scenario.env) 7
              (Scenario.validated "worker" Scenario.Commissioned [])
              (Scenario.resolved "worker"))
    as [Hother _].
  - intros m. reflexivity.
  - reflexivity.
  - transitivity (hostHeap (Scenario.validated "worker" Scenario.Commissioned []) !! 0);
      [|reflexivity].
    apply (Hother 0). apply pointsElsewhere_check. vm_compute. reflexivity.
Defined.

Lemma prepareInventory_hosts_in_range_order_witness :
  ∃ s',
    prepareInventory 7 (Scenario.validated "worker" Scenario.Commissioned []) = Ret None s'
    ∧ events s' !! 7 = Some (set_hosts [1; 2] (Scenario.resolved "worker")).
Proof.
  destruct (prepareInventory_hosts_in_range_order (ME := Scenario.env) 7
              (Scenario.validated "worker" Scenario.Commissioned [])
              (Scenario.resolved "worker"))
    as (s' & hosts & Hrun & Hev & Hptrs).
  - intros m. reflexivity.
  - reflexivity.
  - apply enodesCarryAnsibleHosts_check. vm_compute. reflexivity.
  - apply masterReadable_check. vm_compute. reflexivity.
  - left. vm_compute. eauto.
  - exists s'. split; [exact Hrun|].
    assert (hosts = [1; 2]) as <-; [|exact Hev].
    vm_compute in Hptrs.
    inversion Hptrs as [|c p l l' Hp Hrest]; subst.
    inversion Hrest as [|c' p' l2 l2' Hp' Hrest']; subst.
    inversion Hrest'; subst.
    injection Hp as <-. injection Hp' as <-. reflexivity.
Defined.

Lemma prepareInventory_no_nodes_witness :
  prepareInventory 7 Scenario.noNames
  = Ret None (set_events {[ 7 := newCommissionEvent [] "" "worker" ]}
                Scenario.noNames).
Proof.
  rewrite (prepareInventory_no_nodes (ME := Scenario.env) 7 Scenario.noNames
             (newCommissionEvent [] "" "worker")).
  - vm_compute. reflexivity.
  - intros m. reflexivity.
  - reflexivity.
  - reflexivity.
  - apply masterReadable_check. vm_compute. reflexivity.
  - left. vm_compute. eauto.
Defined.

Lemma scan_found_whatever_the_order_witness :
  ∃ addr1 name1 s1 addr2 name2 s2,
    scanNodes (_enodes (Scenario.resolved "worker"))
      (map_to_list Scenario.registry)
      (Scenario.validated "worker" Scenario.Commissioned [])
    = Ret (addr1, name1, true) s1
    ∧ scanNodes (_enodes (Scenario.resolved "worker"))
        (reverse (map_to_list Scenario.registry))
        (Scenario.validated "worker" Scenario.Commissioned [])
      = Ret (addr2, name2, true) s2.
Proof.
  destruct (scan_found_whatever_the_order (ME := Scenario.env)
              (_enodes (Scenario.resolved "worker"))
              (map_to_list Scenario.registry)
              (reverse (map_to_list Scenario.registry))
              (Scenario.validated "worker" Scenario.Commissioned []))
    as (addr1 & name1 & s1 & addr2 & name2 & s2 & found & Hrun1 & Hrun2 & Hfound).
  - symmetry. apply reverse_Permutation.
  - apply mastersReadable_check. vm_compute. reflexivity.
  - assert (found = true) as ->.
    { apply Hfound. exists ("m1", Scenario.m1). split; [|vm_compute; reflexivity].
      apply elem_of_map_to_list. reflexivity. }
    by exists addr1, name1, s1, addr2, name2, s2.
Defined.

Lemma scan_unique_master_whatever_the_order_witness :
  ∃ s1 s2,
    scanNodes (_enodes (Scenario.resolved "worker"))
      (map_to_list Scenario.registry)
      (Scenario.validated "worker" Scenario.Commissioned [])
    = Ret ("10.0.0.5", "master-1", true) s1
    ∧ scanNodes (_enodes (Scenario.resolved "worker"))
        (reverse (map_to_list Scenario.registry))
        (Scenario.validated "worker" Scenario.Commissioned [])
      = Ret ("10.0.0.5", "master-1", true) s2.
Proof.
  destruct (scan_unique_master_whatever_the_order (ME := Scenario.env)
              (_enodes (Scenario.resolved "worker"))
              (map_to_list Scenario.registry)
              (reverse (map_to_list Scenario.registry))
              (Scenario.validated "worker" Scenario.Commissioned []))
    as (r & s1 & s2 & Hrun1 & Hrun2).
  - symmetry. apply reverse_Permutation.
  - apply mastersReadable_check. vm_compute. reflexivity.
  - apply (unique_master_check _ _ _ ("m1", Scenario.m1)). vm_compute. reflexivity.
  - assert (r = ("10.0.0.5", "master-1", true)) as ->.
    { pose proof Hrun1 as Hr. vm_compute in Hr. by injection Hr as <- _. }
    by exists s1, s2.
Defined.

Lemma process_invalid_group_witness :
  process 7 (Scenario.manager (Scenario.cluster "storage" Scenario.Commissioned []))
  = Ret (Some (Errorf "invalid or empty host-group specified: %q" ["storage"]))
        (Scenario.manager (Scenario.cluster "storage" Scenario.Commissioned [])).
Proof.
  exact (process_invalid_group (ME := Scenario.env) 7
           (Scenario.manager (Scenario.cluster "storage" Scenario.Commissioned []))
           (newCommissionEvent ["n1"; "n2"] "" "storage") eq_refl eq_refl eq_refl).
Defined.

Lemma process_resolution_failure_witness :
  process 7 (Scenario.manager Scenario.unknownName)
  = Ret (Some (Errorf "the node %s doesn't exist" ["zz"]))
        (Scenario.manager Scenario.unknownName).
Proof.
  rewrite (process_resolution_failure (ME := Scenario.env) 7
             (Scenario.manager Scenario.unknownName)
             (newCommissionEvent ["n1"; "zz"] "" "worker")
             (Errorf "the node %s doesn't exist" ["zz"])).
  - vm_compute. reflexivity.
  - reflexivity.
  - reflexivity.
  - reflexivity.
  - vm_compute. reflexivity.
Defined.


Lemma process_failed_transition_keeps_preparation_witness :
  ∃ s3 h1 h2,
    process (ME := Scenario.downEnv) 7
      (Scenario.manager (Scenario.cluster "worker" Scenario.Commissioned []))
    = Ret (Some Scenario.unreachable) (mkManager s3 None [])
    ∧ hostHeap s3 !! 1 = Some h1 ∧ group h1 = "worker"
    ∧ vars h1 !! "masterAddr" = Some "10.0.0.5"
    ∧ hostHeap s3 !! 2 = Some h2 ∧ group h2 = "worker"
    ∧ vars h2 !! "masterAddr" = Some "10.0.0.5".
Proof.
  destruct (process_failed_transition_keeps_preparation (ME := Scenario.downEnv) 7
              (Scenario.manager (Scenario.cluster "worker" Scenario.Commissioned []))
              (newCommissionEvent ["n1"; "n2"] "" "worker"))
    as (s1 & s2 & _ & _ & Hfail).
  - intros m. reflexivity.
  - discriminate.
  - reflexivity.
  - reflexivity.
  - reflexivity.
  - vm_compute. reflexivity.
  - apply carriesAnsibleHost_check. vm_compute. reflexivity.
  - apply (masterReadable_check (ME := Scenario.downEnv)). vm_compute. reflexivity.
  - left. vm_compute. eauto.
  - destruct (Hfail Scenario.unreachable s2 eq_refl) as [Hrun Hkept].
    assert (∀ y nd,
              ({[ "n1" := Scenario.n1; "n2" := Scenario.n2 ]} : gmap string node) !! y
              = Some nd ->
              ∃ p h, Cfg nd = AnsibleHostRef p ∧ hostHeap s2 !! p = Some h
                     ∧ configured (ME := Scenario.downEnv) "worker" "10.0.0.5"
                         "master-1" h) as Hrec
      by exact (Hkept eq_refl).
    destruct (Hrec "n1" Scenario.n1 eq_refl) as (p1 & h1 & Hp1 & Hh1 & Hg1 & Ha1 & _).
    destruct (Hrec "n2" Scenario.n2 eq_refl) as (p2 & h2 & Hp2 & Hh2 & Hg2 & Ha2 & _).
    simpl in Hp1, Hp2. injection Hp1 as <-. injection Hp2 as <-.
    exists s2, h1, h2. split; [exact Hrun|].
    split; [exact Hh1|]. split; [exact Hg1|]. split; [exact Ha1|].
    split; [exact Hh2|]. split; [exact Hg2|exact Ha2].
Defined.
